(** * mlex-json-rules: the Markdown-to-facts/rules generator of [src/index.js]

    A shallow embedding of [parseMarkdownFile], [generateFactsJSON],
    [generateRulesJSON] and the main script, together with the JavaScript
    built-ins they rely on ([String.prototype.split], [trim], [startsWith],
    [slice], [matchAll] for [/#(\w+)/g], [Set], [JSON.stringify] and
    [JSON.parse]), followed by the properties of the generator.

    Strings are sequences of code units; the embedding covers the code units
    below 256 ([Ascii.ascii]).  The [path] module of Node and [marked.parse]
    are collaborators of the script and are taken as parameters. *)

From Stdlib Require Import String Ascii List Bool Arith Lia.
From stdpp Require Import gmap strings.
Import ListNotations.

Local Open Scope list_scope.

(** ** Characters the script and the built-ins name *)

Definition LF : ascii := "010"%char.
Definition DQUOTE : ascii := "034"%char.
Definition BACKSLASH : ascii := "092"%char.
Definition HASH : ascii := "#"%char.
Definition DASH : ascii := "-"%char.

Definition code (c : ascii) : nat := nat_of_ascii c.

(** ** JavaScript string built-ins *)

Module JS.

(** WhiteSpace and LineTerminator code units below 256: TAB, LF, VT, FF,
    CR, SP and NBSP. *)
Definition isWhiteSpace (c : ascii) : bool :=
  ((9 <=? code c) && (code c <=? 13)) || (code c =? 32) || (code c =? 160).

(** [\w] of a regular expression without the [u] and [i] flags. *)
Definition isWordChar (c : ascii) : bool :=
  ((48 <=? code c) && (code c <=? 57))
  || ((65 <=? code c) && (code c <=? 90))
  || ((97 <=? code c) && (code c <=? 122))
  || (code c =? 95).

Fixpoint trimStart (s : string) : string :=
  match s with
  | EmptyString => EmptyString
  | String c s' => if isWhiteSpace c then trimStart s' else s
  end.

Fixpoint trimEnd (s : string) : string :=
  match s with
  | EmptyString => EmptyString
  | String c s' =>
      match trimEnd s' with
      | EmptyString => if isWhiteSpace c then EmptyString else String c EmptyString
      | r => String c r
      end
  end.

(** [s.trim()] *)
Definition trim (s : string) : string := trimEnd (trimStart s).

(** [s.startsWith(p)] *)
Fixpoint startsWith (p s : string) : bool :=
  match p, s with
  | EmptyString, _ => true
  | String a p', String b s' => Ascii.eqb a b && startsWith p' s'
  | String _ _, EmptyString => false
  end.

(** [s.slice(n)] for [n >= 0] *)
Fixpoint slice (n : nat) (s : string) : string :=
  match n, s with
  | O, _ => s
  | S n', String _ s' => slice n' s'
  | S _, EmptyString => EmptyString
  end.

(** [s.split(sep)] for a separator of one code unit; the result always has
    at least one element ([""] splits into [[""]]). *)
Fixpoint split (sep : ascii) (s : string) : list string :=
  match s with
  | EmptyString => [EmptyString]
  | String c s' =>
      if Ascii.eqb c sep then EmptyString :: split sep s'
      else match split sep s' with
           | h :: t => String c h :: t
           | [] => [String c EmptyString]
           end
  end.

(** [a.join(sep)] *)
Fixpoint join (sep : string) (a : list string) : string :=
  match a with
  | [] => EmptyString
  | [x] => x
  | x :: rest => x +:+ sep +:+ join sep rest
  end.

(** [a.includes(x)] on an array of strings *)
Fixpoint includes (x : string) (a : list string) : bool :=
  match a with
  | [] => false
  | y :: rest => String.eqb y x || includes x rest
  end.

(** A [Set] of strings is kept as the list of its elements in insertion
    order; [add] leaves a set that already has the element as it is. *)
Definition Set_has (x : string) (st : list string) : bool := includes x st.

Definition Set_add (x : string) (st : list string) : list string :=
  if Set_has x st then st else st ++ [x].

(** [new Set(a)]: the elements of [a] are added from left to right. *)
Definition Set_of (a : list string) : list string :=
  fold_left (fun st x => Set_add x st) a [].

(** The longest prefix of word characters, and what follows it. *)
Fixpoint spanWord (s : string) : string * string :=
  match s with
  | EmptyString => (EmptyString, EmptyString)
  | String c s' =>
      if isWordChar c
      then let (w, r) := spanWord s' in (String c w, r)
      else (EmptyString, s)
  end.

(** [[...s.matchAll(/#(\w+)/g)].map(m => m[1])]: at each position the
    engine tries [#] followed by a greedy, non-empty run of word
    characters; after a match the search resumes where the match ended,
    after a failure one code unit further.  [fuel] bounds the number of
    positions tried. *)
Fixpoint matchAll_from (fuel : nat) (s : string) : list string :=
  match fuel with
  | O => []
  | S fuel' =>
      match s with
      | EmptyString => []
      | String c s' =>
          if Ascii.eqb c HASH then
            match spanWord s' with
            | (EmptyString, _) => matchAll_from fuel' s'
            | (w, rest) => w :: matchAll_from fuel' rest
            end
          else matchAll_from fuel' s'
      end
  end.

Definition matchAll_hashtags (s : string) : list string :=
  matchAll_from (S (String.length s)) s.

End JS.

(** ** JSON values, [JSON.stringify] and [JSON.parse] *)

(** The values the script serializes hold strings only: objects are kept as
    the list of their members in insertion order (the keys the script uses are
    distinct and none is an array index), arrays as lists. *)
#[local] Unset Elimination Schemes.
Inductive json : Type :=
| JString (s : string)
| JArray (elems : list json)
| JObject (members : list (string * json)).
#[local] Set Elimination Schemes.

Module JSON.

Definition hexDigit (n : nat) : ascii :=
  match n with
  | 0 => "0" | 1 => "1" | 2 => "2" | 3 => "3" | 4 => "4" | 5 => "5"
  | 6 => "6" | 7 => "7" | 8 => "8" | 9 => "9" | 10 => "a" | 11 => "b"
  | 12 => "c" | 13 => "d" | 14 => "e" | _ => "f"
  end%char.

(** The escape of one code unit in QuoteJSONString. *)
Definition escapeChar (c : ascii) : string :=
  let n := code c in
  if n =? 8 then String BACKSLASH "b"
  else if n =? 9 then String BACKSLASH "t"
  else if n =? 10 then String BACKSLASH "n"
  else if n =? 12 then String BACKSLASH "f"
  else if n =? 13 then String BACKSLASH "r"
  else if n =? 34 then String BACKSLASH (String DQUOTE "")
  else if n =? 92 then String BACKSLASH (String BACKSLASH "")
  else if n <? 32 then
    String BACKSLASH
      (String "u" (String "0" (String "0"
         (String (hexDigit (n / 16)) (String (hexDigit (n mod 16)) "")))))
  else String c "".

Fixpoint escape (s : string) : string :=
  match s with
  | EmptyString => EmptyString
  | String c s' => escapeChar c +:+ escape s'
  end.

(** QuoteJSONString *)
Definition quote (s : string) : string :=
  String DQUOTE (escape s +:+ String DQUOTE "").

Definition wrap (opening closing gap indent stepback : string)
    (partial : list string) : string :=
  match partial with
  | [] => opening +:+ closing
  | _ =>
      match gap with
      | EmptyString => opening +:+ JS.join "," partial +:+ closing
      | _ =>
          opening +:+ String LF indent
          +:+ JS.join (String "," (String LF indent)) partial
          +:+ String LF stepback +:+ closing
      end
  end.

(** SerializeJSONProperty with its array and object cases; [gap] is the
    indentation unit and [indent] the current indentation. *)
Fixpoint serialize (gap indent : string) (v : json) : string :=
  match v with
  | JString s => quote s
  | JArray elems =>
      let stepback := indent in
      let indent := indent +:+ gap in
      wrap "[" "]" gap indent stepback (map (serialize gap indent) elems)
  | JObject members =>
      let stepback := indent in
      let indent := indent +:+ gap in
      wrap "{" "}" gap indent stepback
        (map (fun kv =>
                match kv with
                | (k, x) =>
                    quote k +:+ ":"
                    +:+ match gap with EmptyString => "" | _ => " " end
                    +:+ serialize gap indent x
                end) members)
  end.

(** [JSON.stringify(v)] *)
Definition stringify (v : json) : string := serialize "" "" v.

(** [JSON.stringify(v, null, 2)] *)
Definition stringify2 (v : json) : string := serialize "  " "" v.

Definition isJsonWs (c : ascii) : bool :=
  (code c =? 9) || (code c =? 10) || (code c =? 13) || (code c =? 32).

Fixpoint skipWs (s : string) : string :=
  match s with
  | EmptyString => EmptyString
  | String c s' => if isJsonWs c then skipWs s' else s
  end.

Definition hexValue (c : ascii) : option nat :=
  let n := code c in
  if (48 <=? n) && (n <=? 57) then Some (n - 48)
  else if (65 <=? n) && (n <=? 70) then Some (n - 55)
  else if (97 <=? n) && (n <=? 102) then Some (n - 87)
  else None.

(** The code unit of [\uXXXX], when it is one the embedding covers. *)
Definition unicodeEscape (a b c d : ascii) : option ascii :=
  match hexValue a, hexValue b, hexValue c, hexValue d with
  | Some 0, Some 0, Some x, Some y => Some (ascii_of_nat (16 * x + y))
  | _, _, _, _ => None
  end.

Definition consChar (c : ascii) (r : option (string * string))
    : option (string * string) :=
  match r with
  | Some (s, rest) => Some (String c s, rest)
  | None => None
  end.

(** The characters of a string literal up to its closing quote. *)
Fixpoint parseChars (s : string) : option (string * string) :=
  match s with
  | EmptyString => None
  | String c s' =>
      if Ascii.eqb c DQUOTE then Some (EmptyString, s')
      else if Ascii.eqb c BACKSLASH then
        match s' with
        | EmptyString => None
        | String e s'' =>
            if Ascii.eqb e DQUOTE then consChar DQUOTE (parseChars s'')
            else if Ascii.eqb e BACKSLASH then consChar BACKSLASH (parseChars s'')
            else if Ascii.eqb e "/" then consChar "/" (parseChars s'')
            else if Ascii.eqb e "b" then consChar "008" (parseChars s'')
            else if Ascii.eqb e "f" then consChar "012" (parseChars s'')
            else if Ascii.eqb e "n" then consChar "010" (parseChars s'')
            else if Ascii.eqb e "r" then consChar "013" (parseChars s'')
            else if Ascii.eqb e "t" then consChar "009" (parseChars s'')
            else if Ascii.eqb e "u" then
              match s'' with
              | String h1 (String h2 (String h3 (String h4 s5))) =>
                  match unicodeEscape h1 h2 h3 h4 with
                  | Some u => consChar u (parseChars s5)
                  | None => None
                  end
              | _ => None
              end
            else None
        end
      else if code c <? 32 then None
      else consChar c (parseChars s')
  end.

(** The grammar of JSON texts restricted to strings, arrays and objects.
    [fuel] bounds the nesting of the calls. *)
Fixpoint parseValue (fuel : nat) (s : string) : option (json * string) :=
  match fuel with
  | O => None
  | S fuel' =>
      match skipWs s with
      | EmptyString => None
      | String c s' =>
          if Ascii.eqb c DQUOTE then
            match parseChars s' with
            | Some (str, rest) => Some (JString str, rest)
            | None => None
            end
          else if Ascii.eqb c "[" then
            match skipWs s' with
            | EmptyString => None
            | String c' rest =>
                if Ascii.eqb c' "]" then Some (JArray [], rest)
                else match parseElements fuel' s' with
                     | Some (vs, rest) => Some (JArray vs, rest)
                     | None => None
                     end
            end
          else if Ascii.eqb c "{" then
            match skipWs s' with
            | EmptyString => None
            | String c' rest =>
                if Ascii.eqb c' "}" then Some (JObject [], rest)
                else match parseMembers fuel' s' with
                     | Some (ms, rest) => Some (JObject ms, rest)
                     | None => None
                     end
            end
          else None
      end
  end
with parseElements (fuel : nat) (s : string) : option (list json * string) :=
  match fuel with
  | O => None
  | S fuel' =>
      match parseValue fuel' s with
      | None => None
      | Some (v, rest) =>
          match skipWs rest with
          | EmptyString => None
          | String c rest' =>
              if Ascii.eqb c "," then
                match parseElements fuel' rest' with
                | Some (vs, rest'') => Some (v :: vs, rest'')
                | None => None
                end
              else if Ascii.eqb c "]" then Some ([v], rest')
              else None
          end
      end
  end
with parseMembers (fuel : nat) (s : string)
    : option (list (string * json) * string) :=
  match fuel with
  | O => None
  | S fuel' =>
      match skipWs s with
      | EmptyString => None
      | String c s' =>
          if Ascii.eqb c DQUOTE then
            match parseChars s' with
            | None => None
            | Some (k, rest) =>
                match skipWs rest with
                | EmptyString => None
                | String c1 rest1 =>
                    if Ascii.eqb c1 ":" then
                      match parseValue fuel' rest1 with
                      | None => None
                      | Some (v, rest2) =>
                          match skipWs rest2 with
                          | EmptyString => None
                          | String c2 rest3 =>
                              if Ascii.eqb c2 "," then
                                match parseMembers fuel' rest3 with
                                | Some (ms, rest4) => Some ((k, v) :: ms, rest4)
                                | None => None
                                end
                              else if Ascii.eqb c2 "}" then Some ([(k, v)], rest3)
                              else None
                          end
                      end
                    else None
                end
            end
          else None
      end
  end.

(** The number of values and of array and object cells of a value: the
    nesting of the parser's calls on its text stays below it. *)
Fixpoint size (v : json) : nat :=
  match v with
  | JString _ => 1
  | JArray elems => S (list_sum (map (fun x => S (size x)) elems))
  | JObject members =>
      S (list_sum (map (fun kv => match kv with (_, x) => S (size x) end)
                       members))
  end.

(** [JSON.parse(text)]; [None] stands for the SyntaxError. *)
Definition parse (text : string) : option json :=
  match parseValue (S (String.length text)) text with
  | Some (v, rest) =>
      match skipWs rest with
      | EmptyString => Some v
      | _ => None
      end
  | None => None
  end.

End JSON.

(** ** The world the script runs in *)

(** What a rejected promise or a [throw] carries. *)
Inductive Error : Type :=
| ENOENT (syscall path : string)
| EACCES (syscall path : string)
| TypeError (message : string)
| SyntaxError (message : string).

(** A line written by [console.log] or [console.error]. *)
Inductive Entry : Type :=
| LogLine (message : string)
| ErrorLine (message : string) (err : Error).

(** The file system as [fs-extra] shows it to the script, and the console:
    [dirs] gives the listing [readdir] returns for a directory, [files] the
    text of each readable file, [locked] the paths [writeFile] cannot write. *)
Record World : Type := mkWorld {
  dirs : gmap string (list string);
  files : gmap string string;
  locked : gset string;
  console : list Entry
}.

Inductive Outcome (A : Type) : Type :=
| Ok (a : A)
| Throw (e : Error).
Arguments Ok {A} a.
Arguments Throw {A} e.

(** An [async] computation: it runs to a value or to an exception, and
    leaves a world. *)
Definition Async (A : Type) : Type := World -> Outcome A * World.

Definition ret {A} (a : A) : Async A := fun w => (Ok a, w).

Definition throw {A} (e : Error) : Async A := fun w => (Throw e, w).

Definition bind {A B} (m : Async A) (k : A -> Async B) : Async B :=
  fun w =>
    match m w with
    | (Ok a, w') => k a w'
    | (Throw e, w') => (Throw e, w')
    end.

(** [try { m } catch (err) { handler }] *)
Definition try_catch {A} (m : Async A) (handler : Error -> Async A) : Async A :=
  fun w =>
    match m w with
    | (Ok a, w') => (Ok a, w')
    | (Throw e, w') => handler e w'
    end.

Declare Scope async_scope.
Delimit Scope async_scope with async.
Notation "x <- m ;; k" := (bind m (fun x => k))
  (at level 100, m at next level, right associativity) : async_scope.
Notation "m ;;; k" := (bind m (fun _ => k))
  (at level 100, right associativity) : async_scope.
Local Open Scope async_scope.

Definition exec {A} (m : Async A) (w : World) : World := snd (m w).
Definition result {A} (m : Async A) (w : World) : Outcome A := fst (m w).

Module fs.

Definition readdir (dir : string) : Async (list string) :=
  fun w =>
    match dirs w !! dir with
    | Some names => (Ok names, w)
    | None => (Throw (ENOENT "scandir" dir), w)
    end.

Definition readFile (path : string) : Async string :=
  fun w =>
    match files w !! path with
    | Some text => (Ok text, w)
    | None => (Throw (ENOENT "open" path), w)
    end.

(** [writeFile] replaces the text found at [path].  A file is named by the
    path the script uses for it, and [dirs] holds the listings the script asks
    for: those of its input directory, into which it writes nothing. *)
Definition writeFile (path text : string) : Async unit :=
  fun w =>
    if decide (path ∈ locked w) then (Throw (EACCES "open" path), w)
    else (Ok tt,
          {| dirs := dirs w; files := <[path := text]> (files w);
             locked := locked w; console := console w |}).

End fs.

Definition log (e : Entry) : Async unit :=
  fun w =>
    (Ok tt,
     {| dirs := dirs w; files := files w; locked := locked w;
        console := console w ++ [e] |}).

Definition console_log (message : string) : Async unit :=
  log (LogLine message).

Definition console_error (message : string) (err : Error) : Async unit :=
  log (ErrorLine message err).

(** ** The script *)

Record Fact : Type := mkFact {
  title : string;
  body : string;
  tags : list string;
  htmlContent : string
}.

(** The object [{ title, body, tags, htmlContent }] as [JSON.stringify] sees
    it. *)
Definition fact_json (f : Fact) : json :=
  JObject [("title", JString (title f));
           ("body", JString (body f));
           ("tags", JArray (map JString (tags f)));
           ("htmlContent", JString (htmlContent f))].

(** The object literal of lines 100-110. *)
Definition tagRule (tag : string) (f : Fact) : json :=
  JObject
    [("conditions",
      JObject [("in", JArray [JString tag; JObject [("var", JString "tags")]])]);
     ("event",
      JObject
        [("type", JString "tagMatch");
         ("params",
          JObject [("message", JString ("Matched tag: " +:+ tag));
                   ("title", JString (title f));
                   ("body", JString (body f))])])].

(** The object literal of lines 118-128. *)
Definition bodyRule (f : Fact) : json :=
  JObject
    [("conditions",
      JObject [("==", JArray [JObject [("var", JString "body")];
                              JString (body f)])]);
     ("event",
      JObject
        [("type", JString "bodyMatch");
         ("params",
          JObject [("message", JString "Matched body content");
                   ("title", JString (title f));
                   ("body", JString (body f))])])].

(** [!title] for a title that is [null] or a string. *)
Definition falsy (t : option string) : bool :=
  match t with
  | None => true
  | Some EmptyString => true
  | Some _ => false
  end.

(** The loop of lines 32-36: the pieces of every bullet line are pushed. *)
Fixpoint bulletTags (lines : list string) (tags : list string) : list string :=
  match lines with
  | [] => tags
  | line :: rest =>
      if JS.startsWith "- " line
      then bulletTags rest
             (tags ++ map JS.trim (JS.split DASH (JS.slice 2 line)))
      else bulletTags rest tags
  end.

(** The [forEach] of lines 99-115 over the set of rule keys. *)
Definition addTagRules (f : Fact) (rules : list string) : list string :=
  fold_left
    (fun rules tag =>
       let ruleKey := JSON.stringify (tagRule tag f) in
       if negb (JS.Set_has ruleKey rules) then JS.Set_add ruleKey rules
       else rules)
    (tags f) rules.

(** Lines 118-132. *)
Definition addBodyRule (f : Fact) (rules : list string) : list string :=
  let bodyRuleKey := JSON.stringify (bodyRule f) in
  if negb (JS.Set_has bodyRuleKey rules) then JS.Set_add bodyRuleKey rules
  else rules.

(** [[...rules].map(rule => JSON.parse(rule))] *)
Fixpoint parseAll (keys : list string) : Async (list json) :=
  match keys with
  | [] => ret []
  | k :: rest =>
      match JSON.parse k with
      | Some v => (vs <- parseAll rest ;; ret (v :: vs))
      | None => throw (SyntaxError k)
      end
  end.

Definition markdownDir : string := "./markdown".
Definition factsOutputFile : string := "./facts.json".
Definition rulesOutputFile : string := "./rules.json".

(** ** The tag list as the specification words it *)

Module Spec.

(** Deduplication that keeps the first occurrence of each string. *)
Fixpoint firstOccurrences (l : list string) : list string :=
  match l with
  | [] => []
  | x :: rest =>
      x :: List.filter (fun y => negb (String.eqb y x)) (firstOccurrences rest)
  end.

(** Step 4a: for every line that begins with dash, space: the remainder,
    split on the dash, each piece trimmed. *)
Definition bulletCandidates (text : string) : list string :=
  flat_map
    (fun line =>
       if JS.startsWith "- " line
       then map JS.trim (JS.split DASH (JS.slice 2 line))
       else [])
    (JS.split LF text).

(** Step 4b: for every occurrence of a hash followed by one or more word
    characters, those word characters. *)
Fixpoint inlineCandidates (text : string) : list string :=
  match text with
  | EmptyString => []
  | String c rest =>
      if Ascii.eqb c HASH then
        match JS.spanWord rest with
        | (EmptyString, _) => inlineCandidates rest
        | (w, _) => w :: inlineCandidates rest
        end
      else inlineCandidates rest
  end.

(** Step 5: (a) then (b), deduplicated by the equality of the trimmed
    strings, first occurrences kept. *)
Definition tagsOf (text : string) : list string :=
  firstOccurrences
    (map JS.trim (bulletCandidates text ++ inlineCandidates text)).

End Spec.

(** [x] is at exactly one index of [l]. *)
Definition occursOnce {A} (x : A) (l : list A) : Prop :=
  exists i, l !! i = Some x /\ forall j, l !! j = Some x -> j = i.

(** The rules one fact gives rise to, in the order the script builds them,
    and their keys. *)
Definition factRules (f : Fact) : list json :=
  map (fun tag => tagRule tag f) (tags f) ++ [bodyRule f].

Definition factKeys (f : Fact) : list string :=
  map JSON.stringify (factRules f).

(** The [conditions] member of a rule object. *)
Definition conditionsOf (rule : json) : option json :=
  match rule with
  | JObject members =>
      match List.find (fun kv => String.eqb (fst kv) "conditions") members with
      | Some (_, c) => Some c
      | None => None
      end
  | _ => None
  end.

(** The condition of a body-match rule for the body [b]. *)
Definition bodyCondition (b : string) : json :=
  JObject [("==", JArray [JObject [("var", JString "body")]; JString b])].

(** The rules of [rules] whose condition is the body-match condition for [b],
    compared by serialization. *)
Definition bodyMatchRulesFor (b : string) (rules : list json) : list json :=
  List.filter
    (fun rule =>
       match conditionsOf rule with
       | Some c => String.eqb (JSON.stringify c) (JSON.stringify (bodyCondition b))
       | None => false
       end)
    rules.

(** ** An instance of the collaborators, to run the script on examples *)

Module Demo.

(** The part of a path after its last slash. *)
Fixpoint lastSegment (p : string) : string :=
  match p with
  | EmptyString => EmptyString
  | String c p' =>
      if Ascii.eqb c "/" then lastSegment p'
      else if existsb (Ascii.eqb "/") (list_ascii_of_string p')
           then lastSegment p'
           else p
  end.

(** [s] without the suffix [suffix], when it ends with it and is longer. *)
Fixpoint stripSuffix (suffix s : string) : string :=
  match s with
  | EmptyString => EmptyString
  | String c s' =>
      if String.eqb s' suffix then String c EmptyString
      else String c (stripSuffix suffix s')
  end.

Definition basename (p suffix : string) : string :=
  stripSuffix suffix (lastSegment p).

(** The extension: from the last dot of the last segment, when that dot is
    not its first character. *)
Fixpoint lastDot (s : string) : string :=
  match s with
  | EmptyString => EmptyString
  | String c s' =>
      match lastDot s' with
      | EmptyString => if Ascii.eqb c "." then s else EmptyString
      | r => r
      end
  end.

Definition extname (p : string) : string :=
  match lastSegment p with
  | EmptyString => EmptyString
  | String _ s' => lastDot s'
  end.

(** [path.join(dir, file)] for a plain relative [dir] and a file name:
    the leading [./] is normalised away. *)
Definition join (dir file : string) : string :=
  (if JS.startsWith "./" dir then JS.slice 2 dir else dir) +:+ "/" +:+ file.

(** A stand-in for the renderer: the text in one paragraph. *)
Definition marked (text : string) : string :=
  "<p>" +:+ text +:+ "</p>" +:+ String LF "".

Definition world (listing : list string) (docs : list (string * string))
    : World :=
  {| dirs := {[ markdownDir := listing ]};
     files := list_to_map docs;
     locked := ∅;
     console := [] |}.

(** The end-to-end scenario: [a.md] and [b.md]. *)
Definition a_md : string :=
  "# Hello" +:+ String LF "- x - y" +:+ String LF "Body text #z".
Definition b_md : string := "No header" +:+ String LF "#z".

Definition scenario : World :=
  world ["a.md"; "b.md"; "notes.txt"]
        [("markdown/a.md", a_md); ("markdown/b.md", b_md)].

(** A document whose heading is blank. *)
Definition blank : World := world ["n.md"] [("markdown/n.md", "# ")].

(** Two documents without heading and with the same text. *)
Definition twins : World :=
  world ["a.md"; "b.md"] [("markdown/a.md", "same"); ("markdown/b.md", "same")].

(** A bullet line with two dashes. *)
Definition dashes : World := world ["e.md"] [("markdown/e.md", "- - x")].

(** The scenario with a draft between the two documents. *)
Definition draft_md : string := "Draft #UNFINISHED".

Definition drafts : World :=
  world ["a.md"; "u.md"; "b.md"]
        [("markdown/a.md", a_md); ("markdown/u.md", draft_md);
         ("markdown/b.md", b_md)].

(** Bullet tags and inline tags that overlap. *)
Definition tagged_md : string := "- a - b" +:+ String LF "#b #c".

Definition tagged : World := world ["t.md"] [("markdown/t.md", tagged_md)].

(** An empty document. *)
Definition empty : World := world ["z.md"] [("markdown/z.md", "")].

(** A listing with a file that cannot be read. *)
Definition broken : World :=
  world ["a.md"; "gone.md"] [("markdown/a.md", a_md)].

(** A directory without Markdown files. *)
Definition bare : World := world ["notes.txt"; "cover.png"] [].

End Demo.

Section Script.

(** [path.extname], [path.basename] with a suffix, [path.join] of two
    segments, and [marked.parse]. *)
Variable path_extname : string -> string.
Variable path_basename : string -> string -> string.
Variable path_join : string -> string -> string.
Variable marked_parse : string -> string.

Definition parseMarkdownFile (filePath : string) : Async Fact :=
  try_catch
    (content <- fs.readFile filePath ;;
     let htmlContent := marked_parse content in
     let fileName := path_basename filePath ".md" in
     let lines := JS.split LF content in
     match lines with
     | [] => throw (TypeError "Cannot read properties of undefined")
     | line0 :: _ =>
         let '(title, body) :=
           if JS.startsWith "# " line0
           then (Some (JS.trim (JS.slice 2 line0)),
                 JS.join (String LF "") (tl lines))
           else (None, content) in
         let title := if falsy title then fileName
                      else match title with Some t => t | None => fileName end in
         let tags := bulletTags lines [] in
         let inlineTags := JS.matchAll_hashtags content in
         let tags := tags ++ inlineTags in
         let tags := JS.Set_of (map JS.trim tags) in
         ret {| title := title; body := body; tags := tags;
                htmlContent := htmlContent |}
     end)
    (fun err =>
       console_error ("Error reading file " +:+ filePath +:+ ":") err ;;;
       throw err).

(** The [for] loop of [generateFactsJSON]. *)
Fixpoint factsLoop (dir : string) (names : list string) (facts : list Fact)
    : Async (list Fact) :=
  match names with
  | [] => ret facts
  | file :: rest =>
      if String.eqb (path_extname file) ".md" then
        (fact <- parseMarkdownFile (path_join dir file) ;;
         if negb (JS.includes "UNFINISHED" (tags fact))
         then factsLoop dir rest (facts ++ [fact])
         else factsLoop dir rest facts)
      else factsLoop dir rest facts
  end.

Definition generateFactsJSON (dir outputFile : string) : Async unit :=
  try_catch
    (names <- fs.readdir dir ;;
     facts <- factsLoop dir names [] ;;
     fs.writeFile outputFile
       (JSON.stringify2 (JArray (map fact_json facts))) ;;;
     console_log ("Facts JSON generated at " +:+ outputFile))
    (fun err => console_error "Error generating facts JSON:" err).

(** The [for] loop of [generateRulesJSON]; [rules] is the set of keys. *)
Fixpoint rulesLoop (dir : string) (names : list string) (rules : list string)
    : Async (list string) :=
  match names with
  | [] => ret rules
  | file :: rest =>
      if String.eqb (path_extname file) ".md" then
        (fact <- parseMarkdownFile (path_join dir file) ;;
         if negb (JS.includes "UNFINISHED" (tags fact))
         then rulesLoop dir rest (addBodyRule fact (addTagRules fact rules))
         else rulesLoop dir rest rules)
      else rulesLoop dir rest rules
  end.

Definition generateRulesJSON (dir outputFile : string) : Async unit :=
  try_catch
    (names <- fs.readdir dir ;;
     rules <- rulesLoop dir names [] ;;
     objects <- parseAll rules ;;
     fs.writeFile outputFile (JSON.stringify2 (JArray objects)) ;;;
     console_log ("Rules JSON generated at " +:+ outputFile))
    (fun err => console_error "Error generating rules JSON:" err).

(** The facts and the rule objects a pass has in hand when it reaches its
    [writeFile]. *)
Definition factsPass (dir : string) : Async (list Fact) :=
  names <- fs.readdir dir ;; factsLoop dir names [].

Definition rulesPass (dir : string) : Async (list json) :=
  names <- fs.readdir dir ;;
  rules <- rulesLoop dir names [] ;;
  parseAll rules.

(** The script's body, lines 151-158. *)
Definition main : Async unit :=
  try_catch
    (generateFactsJSON markdownDir factsOutputFile ;;;
     generateRulesJSON markdownDir rulesOutputFile)
    (fun err => console_error "Error in script execution:" err).

(** ** Closed forms of the script's computations, for the proofs *)

(** The world after the console has received [extra]. *)
Definition logged (extra : list Entry) (w : World) : World :=
  {| dirs := dirs w; files := files w; locked := locked w;
     console := console w ++ extra |}.

(** The world in which [readdir dir] lists [names]. *)
Definition setListing (dir : string) (names : list string) (w : World) : World :=
  {| dirs := <[dir := names]> (dirs w); files := files w;
     locked := locked w; console := console w |}.

(** The fact [parseMarkdownFile] resolves to for a file of text [content]
    (lemma [parseMarkdownFile_reads]). *)
Definition document (filePath content : string) : Fact :=
  let lines := JS.split LF content in
  let line0 := hd EmptyString lines in
  let header := JS.startsWith "# " line0 in
  let heading := JS.trim (JS.slice 2 line0) in
  {| title := if header && negb (String.eqb heading "") then heading
              else path_basename filePath ".md";
     body := if header then JS.join (String LF "") (tl lines) else content;
     tags := Spec.tagsOf content;
     htmlContent := marked_parse content |}.

Definition unfinished (f : Fact) : bool := JS.includes "UNFINISHED" (tags f).

Definition readError (filePath : string) : Error := ENOENT "open" filePath.

Definition readErrorLine (filePath : string) : Entry :=
  ErrorLine ("Error reading file " +:+ filePath +:+ ":") (readError filePath).

(** What the loop of a pass gathers from the files [fm]: the facts it keeps,
    in order, or the first read error, and the lines it logs (lemmas
    [factsLoop_collect] and [rulesLoop_collect]). *)
Fixpoint collect (fm : gmap string string) (dir : string) (names : list string)
    : Outcome (list Fact) * list Entry :=
  match names with
  | [] => (Ok [], [])
  | file :: rest =>
      if String.eqb (path_extname file) ".md" then
        match fm !! path_join dir file with
        | None => (Throw (readError (path_join dir file)),
                   [readErrorLine (path_join dir file)])
        | Some content =>
            let fact := document (path_join dir file) content in
            match collect fm dir rest with
            | (Ok facts, extra) =>
                (Ok (if unfinished fact then facts else fact :: facts), extra)
            | (Throw e, extra) => (Throw e, extra)
            end
        end
      else collect fm dir rest
  end.

(** The rule keys after the facts [facts] have been processed. *)
Definition addRules (rules : list string) (facts : list Fact) : list string :=
  fold_left (fun rules f => addBodyRule f (addTagRules f rules)) facts rules.

(** Two worlds show a pass the same input directory: the same listing of
    [dir] and the same text for each of its Markdown files. *)
Definition inputsAgree (dir : string) (w w' : World) : Prop :=
  dirs w !! dir = dirs w' !! dir
  /\ forall names file,
       dirs w !! dir = Some names -> In file names ->
       path_extname file = ".md" ->
       files w !! path_join dir file = files w' !! path_join dir file.

(** ** Strings *)

#[local] Arguments String.append : simpl nomatch.

Lemma app_cons (c : ascii) (s t : string) :
  String c s +:+ t = String c (s +:+ t).
Proof. reflexivity. Qed.

Lemma app_empty_r (s : string) : s +:+ "" = s.
Proof. induction s as [|c s IH]; simpl; [reflexivity | now rewrite IH]. Qed.

Lemma app_assoc_s (a b c : string) : (a +:+ b) +:+ c = a +:+ (b +:+ c).
Proof. induction a as [|x a IH]; simpl; [reflexivity | now rewrite IH]. Qed.

Lemma length_app_s (a b : string) :
  String.length (a +:+ b) = String.length a + String.length b.
Proof. induction a as [|x a IH]; simpl; [reflexivity | now rewrite IH]. Qed.

(** ** [JSON.parse] inverts [JSON.stringify] *)

Lemma json_induction (P : json -> Prop) :
  (forall s, P (JString s)) ->
  (forall elems, Forall P elems -> P (JArray elems)) ->
  (forall members, Forall (fun kv => P (snd kv)) members -> P (JObject members)) ->
  forall v, P v.
Proof.
  intros HS HA HO.
  fix IH 1. intros [s | elems | members].
  - apply HS.
  - apply HA. induction elems as [|x elems IHl]; constructor; [apply IH | exact IHl].
  - apply HO. induction members as [|[k x] members IHl]; constructor;
      [apply IH | exact IHl].
Qed.

Lemma parseChars_escapeChar (c : ascii) (tail : string) :
  JSON.parseChars (JSON.escapeChar c +:+ tail)
  = JSON.consChar c (JSON.parseChars tail).
Proof.
  destruct c as [[] [] [] [] [] [] [] []]; reflexivity.
Qed.

Lemma parseChars_escape (s rest : string) :
  JSON.parseChars (JSON.escape s +:+ String DQUOTE rest) = Some (s, rest).
Proof.
  induction s as [|c s IH]; [reflexivity |].
  cbn [JSON.escape]. rewrite app_assoc_s, parseChars_escapeChar, IH.
  reflexivity.
Qed.

Lemma parseChars_quote (s rest : string) :
  JSON.parseChars (JSON.escape s +:+ String DQUOTE "" +:+ rest) = Some (s, rest).
Proof. apply parseChars_escape. Qed.

Lemma skipWs_other (c : ascii) (s : string) :
  JSON.isJsonWs c = false -> JSON.skipWs (String c s) = String c s.
Proof. intros H. simpl. now rewrite H. Qed.

(** A serialized value begins with a quote, a bracket or a brace. *)
Lemma stringify_head (v : json) :
  exists c s, JSON.stringify v = String c s
              /\ (c = DQUOTE \/ c = "["%char \/ c = "{"%char).
Proof.
  destruct v as [s | elems | members]; unfold JSON.stringify; cbn [JSON.serialize].
  - eexists _, _. split; [reflexivity | auto].
  - unfold JSON.wrap. destruct (map _ elems); eexists _, _; (split; [reflexivity | auto]).
  - unfold JSON.wrap. destruct (map _ members); eexists _, _; (split; [reflexivity | auto]).
Qed.

Lemma join_head (sep x : string) (l : list string) (c : ascii) (s : string) :
  x = String c s -> exists s', JS.join sep (x :: l) = String c s'.
Proof.
  intros ->. destruct l as [|y l]; cbn [JS.join]; eauto.
Qed.

Section Roundtrip.

Let good (x : json) : Prop :=
  forall n rest, JSON.size x <= n ->
    JSON.parseValue n (JSON.stringify x +:+ rest) = Some (x, rest).

Lemma parseElements_stringify (elems : list json) :
  Forall good elems -> elems <> [] ->
  forall n rest,
    list_sum (map (fun x => S (JSON.size x)) elems) <= n ->
    JSON.parseElements n
      (JS.join "," (map JSON.stringify elems) +:+ "]" +:+ rest)
    = Some (elems, rest).
Proof.
  induction 1 as [|x l Hx Hl IH]; [congruence |]. intros _ n rest Hn.
  cbn [map list_sum fold_right] in Hn. destruct n as [|n]; [lia |].
  cbn [JSON.parseElements]. destruct l as [|y l].
  - cbn [map JS.join]. rewrite Hx by (cbn in Hn; lia). reflexivity.
  - cbn [map JS.join] in *. rewrite app_assoc_s, Hx by lia.
    rewrite app_assoc_s.
    change ("," +:+ ?t) with (String ","%char t).
    rewrite skipWs_other by reflexivity. cbn [Ascii.eqb Bool.eqb].
    rewrite IH by (congruence || (cbn [map list_sum fold_right] in *; lia)). reflexivity.
Qed.

Lemma parseMembers_stringify (members : list (string * json)) :
  Forall (fun kv => good (snd kv)) members -> members <> [] ->
  forall n rest,
    list_sum (map (fun kv => match kv with (_, x) => S (JSON.size x) end)
                  members) <= n ->
    JSON.parseMembers n
      (JS.join ","
         (map (fun kv => match kv with
                         | (k, x) => JSON.quote k +:+ ":" +:+ "" +:+ JSON.stringify x
                         end) members)
       +:+ "}" +:+ rest)
    = Some (members, rest).
Proof.
  induction 1 as [|[k x] l Hx Hl IH]; [congruence |]. intros _ n rest Hn.
  cbn [map list_sum fold_right snd] in *. destruct n as [|n]; [lia |].
  assert (Hk : forall t,
    JSON.parseMembers (S n)
      ((JSON.quote k +:+ ":" +:+ "" +:+ JSON.stringify x) +:+ t)
    = match JSON.skipWs t with
      | EmptyString => None
      | String c2 rest3 =>
          if Ascii.eqb c2 "," then
            match JSON.parseMembers n rest3 with
            | Some (ms, rest4) => Some ((k, x) :: ms, rest4)
            | None => None
            end
          else if Ascii.eqb c2 "}" then Some ([(k, x)], rest3)
          else None
      end).
  { intros t. cbn [JSON.parseMembers]. unfold JSON.quote.
    rewrite !app_cons. rewrite skipWs_other by reflexivity.
    replace (Ascii.eqb DQUOTE DQUOTE) with true by reflexivity.
    rewrite !app_assoc_s. rewrite !app_cons.
    change ("" +:+ ?u) with u.
    rewrite parseChars_escape.
    change (":" +:+ ?u) with (String ":"%char u).
    rewrite skipWs_other by reflexivity.
    replace (Ascii.eqb ":" ":") with true by reflexivity.
    rewrite Hx by lia. reflexivity. }
  destruct l as [|y l].
  - cbn [map JS.join]. rewrite Hk. reflexivity.
  - cbn [map JS.join] in *. rewrite app_assoc_s, Hk.
    rewrite app_assoc_s.
    change ("," +:+ ?t) with (String ","%char t).
    rewrite skipWs_other by reflexivity.
    replace (Ascii.eqb "," ",") with true by reflexivity.
    rewrite IH by (congruence || (cbn [map list_sum fold_right] in *; lia)). reflexivity.
Qed.

End Roundtrip.

Lemma peek_opening (s : string) (c : ascii) (s0 : string) :
  s = String c s0 -> (c = DQUOTE \/ c = "["%char \/ c = "{"%char) ->
  JSON.skipWs s = String c s0
  /\ Ascii.eqb c "]" = false /\ Ascii.eqb c "}" = false.
Proof.
  intros -> [-> | [-> | ->]]; repeat split; reflexivity.
Qed.

Lemma parseValue_stringify (v : json) :
  forall n rest, JSON.size v <= n ->
    JSON.parseValue n (JSON.stringify v +:+ rest) = Some (v, rest).
Proof.
  induction v as [s | elems IH | members IH] using json_induction;
    intros n rest Hn; (destruct n as [|n]; [cbn in Hn; lia |]).
  - unfold JSON.stringify, JSON.quote. cbn [JSON.serialize].
    unfold JSON.quote. rewrite app_cons, app_assoc_s.
    cbn [JSON.parseValue]. rewrite skipWs_other by reflexivity.
    replace (Ascii.eqb DQUOTE DQUOTE) with true by reflexivity.
    rewrite app_cons. change ("" +:+ rest) with rest.
    rewrite parseChars_escape. reflexivity.
  - destruct elems as [|x l]; [reflexivity |].
    change (JSON.stringify (JArray (x :: l)))
      with (String "[" (JS.join "," (map JSON.stringify (x :: l)) +:+ "]")).
    rewrite app_cons, app_assoc_s. cbn [JSON.parseValue].
    rewrite skipWs_other by reflexivity.
    replace (Ascii.eqb "[" DQUOTE) with false by reflexivity.
    replace (Ascii.eqb "[" "[") with true by reflexivity.
    destruct (stringify_head x) as (c & s0 & Hx & Hc).
    destruct (join_head "," _ (map JSON.stringify l) c s0 Hx) as [s1 Hj].
    assert (Hs : JS.join "," (map JSON.stringify (x :: l)) +:+ "]" +:+ rest
                 = String c (s1 +:+ "]" +:+ rest)).
    { cbn [map]. rewrite Hj. reflexivity. }
    destruct (peek_opening _ _ _ Hs Hc) as (-> & -> & _).
    rewrite parseElements_stringify; [reflexivity | exact IH | congruence |].
    cbn [JSON.size] in Hn. lia.
  - destruct members as [|[k x] l]; [reflexivity |].
    change (JSON.stringify (JObject ((k, x) :: l)))
      with (String "{"
              (JS.join ","
                 (map (fun kv => match kv with
                                 | (k, x) =>
                                     JSON.quote k +:+ ":" +:+ "" +:+ JSON.stringify x
                                 end) ((k, x) :: l)) +:+ "}")).
    rewrite app_cons, app_assoc_s. cbn [JSON.parseValue].
    rewrite skipWs_other by reflexivity.
    replace (Ascii.eqb "{" DQUOTE) with false by reflexivity.
    replace (Ascii.eqb "{" "[") with false by reflexivity.
    replace (Ascii.eqb "{" "{") with true by reflexivity.
    match goal with
    | |- context [JSON.skipWs ?t] =>
        assert (Hs : exists s1, t = String DQUOTE s1)
    end.
    { cbn [map]. destruct (join_head "," (JSON.quote k +:+ ":" +:+ "" +:+ JSON.stringify x)
        (map (fun kv : string * json => let (k0, x0) := kv in
                JSON.quote k0 +:+ ":" +:+ "" +:+ JSON.stringify x0) l)
        DQUOTE _ eq_refl) as [s1 Hj].
      rewrite Hj. eexists. reflexivity. }
    destruct Hs as [s1 Hs].
    destruct (peek_opening _ _ _ Hs (or_introl eq_refl)) as (-> & _ & ->).
    rewrite parseMembers_stringify; [reflexivity | exact IH | congruence |].
    cbn [JSON.size] in Hn. lia.
Qed.

Lemma join_cons2 (sep x y : string) (l : list string) :
  JS.join sep (x :: y :: l) = x +:+ sep +:+ JS.join sep (y :: l).
Proof. reflexivity. Qed.

Lemma length_join_ge {A} (g : A -> nat) (f : A -> string) (l : list A)
    (sep : string) :
  Forall (fun x => g x <= S (String.length (f x))) l ->
  String.length sep = 1 ->
  list_sum (map g l) <= S (String.length (JS.join sep (map f l))).
Proof.
  intros HF Hsep. induction HF as [|x l Hx Hl IH]; [cbn; lia |].
  destruct l as [|y l].
  - cbn. lia.
  - change (list_sum (map g (x :: y :: l)))
      with (g x + list_sum (map g (y :: l))).
    change (map f (x :: y :: l)) with (f x :: f y :: map f l).
    rewrite join_cons2, !length_app_s, Hsep.
    change (f y :: map f l) with (map f (y :: l)). lia.
Qed.

(** The fuel [JSON.parse] starts with covers the text of any value. *)
Lemma size_le_length (v : json) : JSON.size v <= String.length (JSON.stringify v).
Proof.
  induction v as [s | elems IH | members IH] using json_induction.
  - cbn. lia.
  - destruct elems as [|x l]; [cbn; lia |].
    change (JSON.stringify (JArray (x :: l)))
      with (String "[" (JS.join "," (map JSON.stringify (x :: l)) +:+ "]")).
    cbn [JSON.size String.length]. rewrite length_app_s.
    pose proof (length_join_ge (fun x => S (JSON.size x)) JSON.stringify
                  (x :: l) ",") as H.
    cbn [String.length]. apply le_n_S.
    etransitivity; [apply H; [|reflexivity] | lia].
    eapply Forall_impl; [exact IH |]. cbn. intros; lia.
  - destruct members as [|[k x] l]; [cbn; lia |].
    change (JSON.stringify (JObject ((k, x) :: l)))
      with (String "{"
              (JS.join ","
                 (map (fun kv => match kv with
                                 | (k, x) =>
                                     JSON.quote k +:+ ":" +:+ "" +:+ JSON.stringify x
                                 end) ((k, x) :: l)) +:+ "}")).
    cbn [JSON.size String.length]. rewrite length_app_s.
    cbn [String.length]. apply le_n_S.
    pose proof (length_join_ge
                  (fun kv : string * json => let (_, x0) := kv in S (JSON.size x0))
                  (fun kv : string * json =>
                     let (k0, x0) := kv in
                     JSON.quote k0 +:+ ":" +:+ "" +:+ JSON.stringify x0)
                  ((k, x) :: l) ",") as H.
    etransitivity; [apply H; [|reflexivity] | lia].
    eapply Forall_impl; [exact IH |]. intros [k' y] Hy. cbn [snd] in Hy.
    rewrite !length_app_s. lia.
Qed.

Theorem parse_stringify (v : json) : JSON.parse (JSON.stringify v) = Some v.
Proof.
  unfold JSON.parse.
  rewrite <- (app_empty_r (JSON.stringify v)) at 2.
  rewrite parseValue_stringify; [reflexivity |].
  pose proof (size_le_length v). lia.
Qed.

Corollary stringify_inj (u v : json) :
  JSON.stringify u = JSON.stringify v -> u = v.
Proof.
  intros H. pose proof (parse_stringify u) as Hu.
  rewrite H, parse_stringify in Hu. congruence.
Qed.

(** ** [JSON.parse] inverts the indented [JSON.stringify] *)

Lemma skipWs_empty_cons (c : ascii) (a : string) :
  JSON.skipWs (String c a) = "" -> JSON.isJsonWs c = true /\ JSON.skipWs a = "".
Proof.
  cbn [JSON.skipWs]. destruct (JSON.isJsonWs c); [auto | discriminate].
Qed.

Lemma skipWs_app_ws (a s : string) :
  JSON.skipWs a = "" -> JSON.skipWs (a +:+ s) = JSON.skipWs s.
Proof.
  induction a as [|c a IH]; intros Ha; [reflexivity |].
  apply skipWs_empty_cons in Ha as [Hc Ha].
  rewrite app_cons. cbn [JSON.skipWs]. rewrite Hc. auto.
Qed.

Lemma skipWs_ws_app (a b : string) :
  JSON.skipWs a = "" -> JSON.skipWs b = "" -> JSON.skipWs (a +:+ b) = "".
Proof. intros Ha Hb. now rewrite skipWs_app_ws. Qed.

Lemma parseValue_skip (n : nat) (a s : string) :
  JSON.skipWs a = "" -> JSON.parseValue n (a +:+ s) = JSON.parseValue n s.
Proof.
  intros Ha. destruct n as [|n]; [reflexivity |].
  cbn [JSON.parseValue]. now rewrite skipWs_app_ws.
Qed.

Lemma parseElements_skip (n : nat) (a s : string) :
  JSON.skipWs a = "" -> JSON.parseElements n (a +:+ s) = JSON.parseElements n s.
Proof.
  intros Ha. destruct n as [|n]; [reflexivity |].
  cbn [JSON.parseElements]. now rewrite parseValue_skip.
Qed.

Lemma parseMembers_skip (n : nat) (a s : string) :
  JSON.skipWs a = "" -> JSON.parseMembers n (a +:+ s) = JSON.parseMembers n s.
Proof.
  intros Ha. destruct n as [|n]; [reflexivity |].
  cbn [JSON.parseMembers]. now rewrite skipWs_app_ws.
Qed.

(** Elements separated by a comma and white space, closed after white
    space. *)
Lemma parseElements_separated (f : json -> string) (wsep tail rest : string)
    (elems : list json) :
  Forall (fun x => forall n r, JSON.size x <= n ->
                     JSON.parseValue n (f x +:+ r) = Some (x, r)) elems ->
  elems <> [] ->
  JSON.skipWs wsep = "" ->
  JSON.skipWs tail = String "]" rest ->
  forall n,
    list_sum (map (fun x => S (JSON.size x)) elems) <= n ->
    JSON.parseElements n (JS.join (String "," wsep) (map f elems) +:+ tail)
    = Some (elems, rest).
Proof.
  intros HF Hne Hsep Htail.
  induction HF as [|x l Hx Hl IH]; [congruence |]. intros n Hn.
  change (list_sum (map (fun x => S (JSON.size x)) (x :: l)))
    with (S (JSON.size x) + list_sum (map (fun x => S (JSON.size x)) l)) in Hn.
  destruct n as [|n]; [lia |]. cbn [JSON.parseElements]. destruct l as [|y l].
  - cbn [map JS.join]. rewrite Hx by lia. rewrite Htail. reflexivity.
  - change (map f (x :: y :: l)) with (f x :: f y :: map f l).
    rewrite join_cons2, !app_assoc_s, Hx by lia.
    rewrite app_cons, skipWs_other by reflexivity.
    replace (Ascii.eqb "," ",") with true by reflexivity.
    rewrite parseElements_skip by exact Hsep.
    change (f y :: map f l) with (map f (y :: l)).
    rewrite IH by (congruence || lia). reflexivity.
Qed.

(** Members written as key, colon, white space, value. *)
Lemma parseMembers_separated (g : json -> string) (sp wsep tail rest : string)
    (members : list (string * json)) :
  Forall (fun kv => forall n r, JSON.size (snd kv) <= n ->
                      JSON.parseValue n (g (snd kv) +:+ r) = Some (snd kv, r))
         members ->
  members <> [] ->
  JSON.skipWs sp = "" -> JSON.skipWs wsep = "" ->
  JSON.skipWs tail = String "}" rest ->
  forall n,
    list_sum (map (fun kv => match kv with (_, x) => S (JSON.size x) end)
                  members) <= n ->
    JSON.parseMembers n
      (JS.join (String "," wsep)
         (map (fun kv => match kv with
                         | (k, x) => JSON.quote k +:+ ":" +:+ sp +:+ g x
                         end) members)
       +:+ tail)
    = Some (members, rest).
Proof.
  intros HF Hne Hsp Hsep Htail.
  induction HF as [|[k x] l Hx Hl IH]; [congruence |]. intros n Hn.
  cbn [snd] in Hx.
  change (list_sum (map (fun kv : string * json =>
                           let (_, x0) := kv in S (JSON.size x0)) ((k, x) :: l)))
    with (S (JSON.size x)
          + list_sum (map (fun kv : string * json =>
                             let (_, x0) := kv in S (JSON.size x0)) l)) in Hn.
  destruct n as [|n]; [lia |].
  assert (Hk : forall t,
    JSON.parseMembers (S n) ((JSON.quote k +:+ ":" +:+ sp +:+ g x) +:+ t)
    = match JSON.skipWs t with
      | EmptyString => None
      | String c2 rest3 =>
          if Ascii.eqb c2 "," then
            match JSON.parseMembers n rest3 with
            | Some (ms, rest4) => Some ((k, x) :: ms, rest4)
            | None => None
            end
          else if Ascii.eqb c2 "}" then Some ([(k, x)], rest3)
          else None
      end).
  { intros t. cbn [JSON.parseMembers]. unfold JSON.quote.
    rewrite !app_cons. rewrite skipWs_other by reflexivity.
    replace (Ascii.eqb DQUOTE DQUOTE) with true by reflexivity.
    rewrite !app_assoc_s. cbn [String.append]. rewrite ?app_assoc_s.
    rewrite parseChars_escape.
    rewrite skipWs_other by reflexivity.
    replace (Ascii.eqb ":" ":") with true by reflexivity.
    rewrite parseValue_skip by exact Hsp.
    rewrite Hx by lia. reflexivity. }
  destruct l as [|[k' y] l].
  - cbn [map JS.join]. rewrite Hk, Htail. reflexivity.
  - cbn [map]. rewrite join_cons2, app_assoc_s, Hk.
    rewrite app_assoc_s, app_cons, skipWs_other by reflexivity.
    replace (Ascii.eqb "," ",") with true by reflexivity.
    rewrite parseMembers_skip by exact Hsep.
    change (?h :: map ?f l) with (map f ((k', y) :: l)).
    rewrite IH by (congruence || lia). reflexivity.
Qed.

Lemma skipWs_LF (s : string) : JSON.skipWs (String LF s) = JSON.skipWs s.
Proof. reflexivity. Qed.

Lemma serialize_head (gap indent : string) (v : json) :
  exists c s, JSON.serialize gap indent v = String c s
              /\ (c = DQUOTE \/ c = "["%char \/ c = "{"%char).
Proof.
  destruct v as [s | elems | members]; cbn [JSON.serialize].
  - eexists _, _. split; [reflexivity | auto].
  - unfold JSON.wrap. destruct (map _ elems); [|destruct gap];
      eexists _, _; (split; [reflexivity | auto]).
  - unfold JSON.wrap. destruct (map _ members); [|destruct gap];
      eexists _, _; (split; [reflexivity | auto]).
Qed.

Lemma parseValue_array (ws J tail rest : string) (elems : list json) (n : nat) :
  JSON.skipWs ws = "" ->
  (exists c s, J = String c s /\ (c = DQUOTE \/ c = "["%char \/ c = "{"%char)) ->
  JSON.parseElements n (J +:+ tail) = Some (elems, rest) ->
  JSON.parseValue (S n) (String "[" (ws +:+ J +:+ tail))
  = Some (JArray elems, rest).
Proof.
  intros Hws (c & s & -> & Hc) Hparse. cbn [JSON.parseValue].
  rewrite skipWs_other by reflexivity.
  replace (Ascii.eqb "[" DQUOTE) with false by reflexivity.
  replace (Ascii.eqb "[" "[") with true by reflexivity.
  rewrite skipWs_app_ws by exact Hws.
  destruct (peek_opening (String c s +:+ tail) c (s +:+ tail) eq_refl Hc)
    as (-> & -> & _).
  rewrite parseElements_skip by exact Hws. now rewrite Hparse.
Qed.

Lemma parseValue_object (ws J tail rest : string)
    (members : list (string * json)) (n : nat) :
  JSON.skipWs ws = "" ->
  (exists s, J = String DQUOTE s) ->
  JSON.parseMembers n (J +:+ tail) = Some (members, rest) ->
  JSON.parseValue (S n) (String "{" (ws +:+ J +:+ tail))
  = Some (JObject members, rest).
Proof.
  intros Hws (s & ->) Hparse. cbn [JSON.parseValue].
  rewrite skipWs_other by reflexivity.
  replace (Ascii.eqb "{" DQUOTE) with false by reflexivity.
  replace (Ascii.eqb "{" "[") with false by reflexivity.
  replace (Ascii.eqb "{" "{") with true by reflexivity.
  rewrite skipWs_app_ws by exact Hws.
  destruct (peek_opening (String DQUOTE s +:+ tail) DQUOTE (s +:+ tail) eq_refl
              (or_introl eq_refl)) as (-> & _ & ->).
  rewrite parseMembers_skip by exact Hws. now rewrite Hparse.
Qed.

Lemma parseValue_serialize (g : ascii) (gap' : string) (v : json) :
  JSON.skipWs (String g gap') = "" ->
  forall indent n rest,
    JSON.skipWs indent = "" -> JSON.size v <= n ->
    JSON.parseValue n (JSON.serialize (String g gap') indent v +:+ rest)
    = Some (v, rest).
Proof.
  intros Hgap.
  induction v as [s | elems IH | members IH] using json_induction;
    intros indent n rest Hind Hn; (destruct n as [|n]; [cbn in Hn; lia |]).
  - cbn [JSON.serialize]. unfold JSON.quote. rewrite app_cons, app_assoc_s.
    cbn [JSON.parseValue]. rewrite skipWs_other by reflexivity.
    replace (Ascii.eqb DQUOTE DQUOTE) with true by reflexivity.
    rewrite app_cons. change ("" +:+ rest) with rest.
    rewrite parseChars_escape. reflexivity.
  - destruct elems as [|x l]; [reflexivity |].
    set (ind := indent +:+ String g gap').
    assert (Hind' : JSON.skipWs ind = "") by now apply skipWs_ws_app.
    change (JSON.serialize (String g gap') indent (JArray (x :: l)))
      with (String "["
              (String LF ind
               +:+ JS.join (String "," (String LF ind))
                     (map (JSON.serialize (String g gap') ind) (x :: l))
               +:+ String LF indent +:+ "]")).
    rewrite app_cons, !app_assoc_s.
    apply parseValue_array.
    + now rewrite skipWs_LF.
    + destruct (serialize_head (String g gap') ind x) as (c & s & Hx & Hc).
      destruct (join_head (String "," (String LF ind)) _
                  (map (JSON.serialize (String g gap') ind) l) c s Hx) as [s1 Hj].
      exists c, s1. split; [exact Hj | exact Hc].
    + apply parseElements_separated.
      * eapply Forall_impl; [exact IH |]. cbn beta. intros y Hy m r Hm.
        now apply Hy.
      * congruence.
      * now rewrite skipWs_LF.
      * rewrite app_cons, skipWs_LF, skipWs_app_ws by exact Hind. reflexivity.
      * cbn [JSON.size] in Hn. lia.
  - destruct members as [|[k x] l]; [reflexivity |].
    set (ind := indent +:+ String g gap').
    assert (Hind' : JSON.skipWs ind = "") by now apply skipWs_ws_app.
    change (JSON.serialize (String g gap') indent (JObject ((k, x) :: l)))
      with (String "{"
              (String LF ind
               +:+ JS.join (String "," (String LF ind))
                     (map (fun kv => match kv with
                                     | (k, x) =>
                                         JSON.quote k +:+ ":" +:+ " "
                                         +:+ JSON.serialize (String g gap') ind x
                                     end) ((k, x) :: l))
               +:+ String LF indent +:+ "}")).
    rewrite app_cons, !app_assoc_s.
    apply parseValue_object.
    + now rewrite skipWs_LF.
    + cbn [map].
      destruct (join_head (String "," (String LF ind))
                  (JSON.quote k +:+ ":" +:+ " "
                   +:+ JSON.serialize (String g gap') ind x)
                  (map (fun kv : string * json =>
                          let (k0, x0) := kv in
                          JSON.quote k0 +:+ ":" +:+ " "
                          +:+ JSON.serialize (String g gap') ind x0) l)
                  DQUOTE _ eq_refl) as [s1 Hj].
      exists s1. exact Hj.
    + apply (parseMembers_separated (JSON.serialize (String g gap') ind) " ").
      * eapply Forall_impl; [exact IH |]. cbn beta. intros kv Hy m r Hm.
        now apply Hy.
      * congruence.
      * reflexivity.
      * now rewrite skipWs_LF.
      * rewrite app_cons, skipWs_LF, skipWs_app_ws by exact Hind. reflexivity.
      * cbn [JSON.size] in Hn. lia.
Qed.

Lemma length_join_sep {A} (g : A -> nat) (f : A -> string) (l : list A)
    (sep : string) :
  Forall (fun x => g x <= S (String.length (f x))) l ->
  1 <= String.length sep ->
  list_sum (map g l) <= S (String.length (JS.join sep (map f l))).
Proof.
  intros HF Hsep. induction HF as [|x l Hx Hl IH]; [cbn; lia |].
  destruct l as [|y l].
  - cbn. lia.
  - change (list_sum (map g (x :: y :: l)))
      with (g x + list_sum (map g (y :: l))).
    change (map f (x :: y :: l)) with (f x :: f y :: map f l).
    rewrite join_cons2, !length_app_s.
    change (f y :: map f l) with (map f (y :: l)). lia.
Qed.

Lemma size_le_length_serialize (g : ascii) (gap' : string) (v : json) :
  forall indent,
    JSON.size v <= String.length (JSON.serialize (String g gap') indent v).
Proof.
  induction v as [s | elems IH | members IH] using json_induction; intros indent.
  - cbn. lia.
  - destruct elems as [|x l]; [cbn; lia |].
    set (ind := indent +:+ String g gap').
    change (JSON.serialize (String g gap') indent (JArray (x :: l)))
      with (String "["
              (String LF ind
               +:+ JS.join (String "," (String LF ind))
                     (map (JSON.serialize (String g gap') ind) (x :: l))
               +:+ String LF indent +:+ "]")).
    cbn [JSON.size String.length]. rewrite !length_app_s.
    pose proof (length_join_sep (fun x => S (JSON.size x))
                  (JSON.serialize (String g gap') ind) (x :: l)
                  (String "," (String LF ind))) as H.
    cbn [String.length] in *. apply le_n_S.
    etransitivity; [apply H; [|lia] | lia].
    eapply Forall_impl; [exact IH |]. cbn beta. intros y Hy. specialize (Hy ind). lia.
  - destruct members as [|[k x] l]; [cbn; lia |].
    set (ind := indent +:+ String g gap').
    change (JSON.serialize (String g gap') indent (JObject ((k, x) :: l)))
      with (String "{"
              (String LF ind
               +:+ JS.join (String "," (String LF ind))
                     (map (fun kv => match kv with
                                     | (k, x) =>
                                         JSON.quote k +:+ ":" +:+ " "
                                         +:+ JSON.serialize (String g gap') ind x
                                     end) ((k, x) :: l))
               +:+ String LF indent +:+ "}")).
    cbn [JSON.size String.length]. rewrite !length_app_s.
    pose proof (length_join_sep
                  (fun kv : string * json => let (_, x0) := kv in S (JSON.size x0))
                  (fun kv : string * json =>
                     let (k0, x0) := kv in
                     JSON.quote k0 +:+ ":" +:+ " "
                     +:+ JSON.serialize (String g gap') ind x0)
                  ((k, x) :: l) (String "," (String LF ind))) as H.
    cbn [String.length] in *. apply le_n_S.
    etransitivity; [apply H; [|lia] | lia].
    eapply Forall_impl; [exact IH |]. intros [k' y] Hy. cbn [snd] in Hy.
    specialize (Hy ind). rewrite !length_app_s. lia.
Qed.

Lemma parse_stringify2 (v : json) : JSON.parse (JSON.stringify2 v) = Some v.
Proof.
  unfold JSON.parse, JSON.stringify2.
  rewrite <- (app_empty_r (JSON.serialize "  " "" v)) at 2.
  rewrite parseValue_serialize; [reflexivity | reflexivity | reflexivity |].
  pose proof (size_le_length_serialize " " " " v ""). lia.
Qed.

(** ** Arrays and sets of strings *)

Lemma includes_In (x : string) (l : list string) :
  JS.includes x l = true <-> In x l.
Proof.
  induction l as [|y l IH]; cbn [JS.includes In].
  - split; [discriminate | tauto].
  - rewrite orb_true_iff, IH, String.eqb_eq. tauto.
Qed.

Lemma includes_false (x : string) (l : list string) :
  JS.includes x l = false <-> ~ In x l.
Proof.
  rewrite <- includes_In. destruct (JS.includes x l); split; congruence.
Qed.

Lemma includes_app (x : string) (l k : list string) :
  JS.includes x (l ++ k) = JS.includes x l || JS.includes x k.
Proof.
  induction l as [|y l IH]; cbn [JS.includes app]; [reflexivity |].
  now rewrite IH, orb_assoc.
Qed.

Lemma filter_filter_comm {A} (p q : A -> bool) (l : list A) :
  List.filter p (List.filter q l) = List.filter q (List.filter p l).
Proof.
  induction l as [|x l IH]; [reflexivity |]. cbn [List.filter].
  destruct (p x) eqn:Hp, (q x) eqn:Hq; cbn [List.filter];
    rewrite ?Hp, ?Hq, IH; reflexivity.
Qed.

Lemma filter_absorb {A} (p q : A -> bool) (l : list A) :
  (forall y, p y = true -> q y = true) ->
  List.filter p (List.filter q l) = List.filter p l.
Proof.
  intros Hpq. induction l as [|x l IH]; [reflexivity |]. cbn [List.filter].
  destruct (q x) eqn:Hq; cbn [List.filter].
  - now rewrite IH.
  - destruct (p x) eqn:Hp; [|exact IH]. apply Hpq in Hp. congruence.
Qed.

Lemma firstOccurrences_filter (p : string -> bool) (l : list string) :
  Spec.firstOccurrences (List.filter p l)
  = List.filter p (Spec.firstOccurrences l).
Proof.
  induction l as [|x l IH]; [reflexivity |].
  cbn [List.filter Spec.firstOccurrences]. destruct (p x) eqn:Hp.
  - cbn [Spec.firstOccurrences]. now rewrite IH, filter_filter_comm.
  - rewrite IH. symmetry. apply filter_absorb.
    intros y Hy. destruct (String.eqb_spec y x) as [-> |]; [congruence | reflexivity].
Qed.

Lemma filter_both {A} (p q r : A -> bool) (l : list A) :
  (forall y, r y = p y && q y) ->
  List.filter r l = List.filter p (List.filter q l).
Proof.
  intros Hr. induction l as [|x l IH]; [reflexivity |]. cbn [List.filter].
  rewrite Hr. destruct (q x); cbn [List.filter].
  - rewrite andb_true_r. destruct (p x); now rewrite IH.
  - now rewrite andb_false_r.
Qed.

Lemma Set_fold_firstOccurrences (l acc : list string) :
  fold_left (fun st x => JS.Set_add x st) l acc
  = acc ++ Spec.firstOccurrences
             (List.filter (fun x => negb (JS.includes x acc)) l).
Proof.
  revert acc. induction l as [|x l IH]; intros acc.
  - cbn. now rewrite app_nil_r.
  - cbn [fold_left List.filter]. rewrite IH. unfold JS.Set_add, JS.Set_has.
    destruct (JS.includes x acc) eqn:Hx; cbn [negb]; [reflexivity |].
    cbn [Spec.firstOccurrences]. rewrite <- app_assoc. cbn [app]. do 2 f_equal.
    rewrite <- firstOccurrences_filter. f_equal.
    apply filter_both. intros y. rewrite includes_app. cbn [JS.includes].
    rewrite orb_false_r, (String.eqb_sym x y).
    destruct (String.eqb y x), (JS.includes y acc); reflexivity.
Qed.

(** [new Set(a)] keeps the first occurrence of every element, in order. *)
Lemma Set_of_firstOccurrences (l : list string) :
  JS.Set_of l = Spec.firstOccurrences l.
Proof.
  unfold JS.Set_of. rewrite Set_fold_firstOccurrences. cbn [app]. f_equal.
  induction l as [|x l IH]; [reflexivity |]. cbn [List.filter JS.includes negb].
  f_equal. exact IH.
Qed.

Lemma firstOccurrences_In (x : string) (l : list string) :
  In x (Spec.firstOccurrences l) <-> In x l.
Proof.
  induction l as [|y l IH]; [reflexivity |].
  cbn [Spec.firstOccurrences In]. rewrite filter_In, IH.
  destruct (String.eqb_spec x y) as [-> | Hne]; cbn [negb].
  - split; [intros [? | [? ?]]; auto | auto].
  - split; [intros [? | [? ?]]; auto | intros [? | ?]; auto].
Qed.

Lemma NoDup_filter_b {A} (p : A -> bool) (l : list A) :
  List.NoDup l -> List.NoDup (List.filter p l).
Proof.
  induction 1 as [|x l Hx Hl IH]; cbn [List.filter]; [constructor |].
  destruct (p x); [|exact IH]. constructor; [|exact IH].
  rewrite filter_In. tauto.
Qed.

Lemma firstOccurrences_NoDup (l : list string) :
  List.NoDup (Spec.firstOccurrences l).
Proof.
  induction l as [|x l IH]; cbn [Spec.firstOccurrences]; constructor.
  - rewrite filter_In, String.eqb_refl. cbn. intros [_ H]. discriminate.
  - now apply NoDup_filter_b.
Qed.

(** The guarded [add] of the script is the [add] of a [Set]. *)
Lemma guarded_add (k : string) (st : list string) :
  (if negb (JS.Set_has k st) then JS.Set_add k st else st) = JS.Set_add k st.
Proof.
  unfold JS.Set_add. destruct (JS.Set_has k st); reflexivity.
Qed.

(** ** Lines and hashtags *)

Lemma split_cons (sep : ascii) (s : string) :
  exists line0 rest, JS.split sep s = line0 :: rest.
Proof.
  destruct s as [|c s]; cbn [JS.split]; [eauto |].
  destruct (Ascii.eqb c sep); [eauto |]. destruct (JS.split sep s); eauto.
Qed.

Lemma bulletTags_flat_map (lines acc : list string) :
  bulletTags lines acc
  = acc ++ flat_map
             (fun line =>
                if JS.startsWith "- " line
                then map JS.trim (JS.split DASH (JS.slice 2 line))
                else [])
             lines.
Proof.
  revert acc. induction lines as [|line lines IH]; intros acc;
    cbn [bulletTags flat_map].
  - now rewrite app_nil_r.
  - destruct (JS.startsWith "- " line); rewrite IH.
    + now rewrite <- app_assoc.
    + reflexivity.
Qed.

Lemma wordChar_not_hash (c : ascii) :
  JS.isWordChar c = true -> Ascii.eqb c HASH = false.
Proof.
  destruct (Ascii.eqb_spec c HASH) as [-> |]; [discriminate | reflexivity].
Qed.

Lemma spanWord_length (s w rest : string) :
  JS.spanWord s = (w, rest) -> String.length rest <= String.length s.
Proof.
  revert w. induction s as [|c s IH]; intros w; cbn [JS.spanWord].
  - intros [= <- <-]. reflexivity.
  - destruct (JS.isWordChar c).
    + destruct (JS.spanWord s) as [w' r] eqn:Hs. intros [= <- <-].
      cbn [String.length]. specialize (IH _ eq_refl). lia.
    + intros [= <- <-]. reflexivity.
Qed.

(** No hashtag starts inside a run of word characters. *)
Lemma inlineCandidates_spanWord (s w rest : string) :
  JS.spanWord s = (w, rest) ->
  Spec.inlineCandidates s = Spec.inlineCandidates rest.
Proof.
  revert w. induction s as [|c s IH]; intros w; cbn [JS.spanWord].
  - intros [= <- <-]. reflexivity.
  - destruct (JS.isWordChar c) eqn:Hc.
    + destruct (JS.spanWord s) as [w' r] eqn:Hs. intros [= <- <-].
      cbn [Spec.inlineCandidates]. rewrite (wordChar_not_hash _ Hc). eauto.
    + intros [= <- <-]. reflexivity.
Qed.

Lemma matchAll_from_inlineCandidates (fuel : nat) (s : string) :
  String.length s < fuel ->
  JS.matchAll_from fuel s = Spec.inlineCandidates s.
Proof.
  revert s. induction fuel as [|fuel IH]; intros s Hlen; [lia |].
  destruct s as [|c s]; [reflexivity |].
  cbn [JS.matchAll_from Spec.inlineCandidates String.length] in *.
  destruct (Ascii.eqb c HASH); [|apply IH; lia].
  destruct (JS.spanWord s) as [w rest] eqn:Hs.
  destruct w as [|a w]; [apply IH; lia |].
  rewrite (inlineCandidates_spanWord _ _ _ Hs). f_equal.
  apply IH. apply spanWord_length in Hs. lia.
Qed.

Lemma matchAll_hashtags_spec (s : string) :
  JS.matchAll_hashtags s = Spec.inlineCandidates s.
Proof. apply matchAll_from_inlineCandidates. lia. Qed.

Lemma join_split (sep : ascii) (s : string) :
  JS.join (String sep "") (JS.split sep s) = s.
Proof.
  induction s as [|c s IH]; [reflexivity |]. cbn [JS.split].
  destruct (Ascii.eqb_spec c sep) as [-> | Hne].
  - destruct (split_cons sep s) as (h & t & Hs). rewrite Hs in *.
    rewrite join_cons2, IH. reflexivity.
  - destruct (split_cons sep s) as (h & t & Hs). rewrite Hs in *.
    destruct t as [|y t]; cbn [JS.join] in *; now rewrite <- IH.
Qed.

(** A separator that follows [a] closes the last piece of [a]. *)
Lemma split_app_sep (sep : ascii) (a t : string) :
  JS.split sep (a +:+ String sep t) = JS.split sep a ++ JS.split sep t.
Proof.
  induction a as [|x a IH]; cbn [JS.split String.append].
  - now rewrite Ascii.eqb_refl.
  - rewrite IH. destruct (Ascii.eqb x sep); [reflexivity |].
    destruct (split_cons sep a) as (h & r & ->). reflexivity.
Qed.

Lemma split_leading_sep (sep : ascii) (t : string) :
  JS.split sep (String sep t) = EmptyString :: JS.split sep t.
Proof. cbn [JS.split]. now rewrite Ascii.eqb_refl. Qed.

Lemma startsWith_app (p s : string) : JS.startsWith p (p +:+ s) = true.
Proof.
  induction p as [|c p IH]; [reflexivity |]. cbn [JS.startsWith String.append].
  now rewrite Ascii.eqb_refl, IH.
Qed.

Lemma In_trim_empty (l : list string) : In "" l -> In "" (map JS.trim l).
Proof. intros H. apply (in_map JS.trim) in H. exact H. Qed.

(** ** Characters of trimmed strings, pieces and hashtags *)

Lemma trimStart_chars (c : ascii) (s : string) :
  In c (list_ascii_of_string (JS.trimStart s)) -> In c (list_ascii_of_string s).
Proof.
  induction s as [|a s IH]; cbn [JS.trimStart]; [auto |].
  destruct (JS.isWhiteSpace a); [|auto]. intros H. right. auto.
Qed.

Lemma trimEnd_chars (c : ascii) (s : string) :
  In c (list_ascii_of_string (JS.trimEnd s)) -> In c (list_ascii_of_string s).
Proof.
  induction s as [|a s IH]; cbn [JS.trimEnd]; [auto |].
  destruct (JS.trimEnd s) as [|b r].
  - destruct (JS.isWhiteSpace a); cbn [list_ascii_of_string In];
      [intros [] | intros [-> | []]; now left].
  - cbn [list_ascii_of_string In]. cbn [list_ascii_of_string In] in IH.
    intros [-> | H]; [now left | right; auto].
Qed.

Lemma trim_chars (c : ascii) (s : string) :
  In c (list_ascii_of_string (JS.trim s)) -> In c (list_ascii_of_string s).
Proof. intros H. now apply trimStart_chars, trimEnd_chars. Qed.

Lemma trimStart_head (s : string) :
  JS.trimStart s = ""
  \/ exists c r, JS.trimStart s = String c r /\ JS.isWhiteSpace c = false.
Proof.
  induction s as [|a s IH]; cbn [JS.trimStart]; [now left |].
  destruct (JS.isWhiteSpace a) eqn:Ha; [exact IH | right; eauto].
Qed.

Lemma trimEnd_cons (c : ascii) (s : string) :
  JS.isWhiteSpace c = false ->
  JS.trimEnd (String c s) = String c (JS.trimEnd s).
Proof.
  intros Hc. cbn [JS.trimEnd]. rewrite Hc. now destruct (JS.trimEnd s).
Qed.

Lemma trimEnd_idem (s : string) : JS.trimEnd (JS.trimEnd s) = JS.trimEnd s.
Proof.
  induction s as [|a s IH]; [reflexivity |]. cbn [JS.trimEnd].
  destruct (JS.trimEnd s) as [|b r] eqn:Hs.
  - destruct (JS.isWhiteSpace a) eqn:Ha; [reflexivity |].
    cbn [JS.trimEnd]. now rewrite Ha.
  - change (JS.trimEnd (String a (String b r))) with
      (match JS.trimEnd (String b r) with
       | EmptyString => if JS.isWhiteSpace a then EmptyString else String a EmptyString
       | r' => String a r'
       end).
    now rewrite IH.
Qed.

(** [trim] leaves a trimmed string as it is. *)
Lemma trim_idem (s : string) : JS.trim (JS.trim s) = JS.trim s.
Proof.
  unfold JS.trim. destruct (trimStart_head s) as [-> | (c & r & -> & Hc)];
    [reflexivity |].
  rewrite trimEnd_cons by exact Hc. cbn [JS.trimStart]. rewrite Hc.
  rewrite trimEnd_cons by exact Hc. now rewrite trimEnd_idem.
Qed.

Lemma trimEnd_plain (s : string) :
  (forall c, In c (list_ascii_of_string s) -> JS.isWhiteSpace c = false) ->
  JS.trimEnd s = s.
Proof.
  induction s as [|a s IH]; intros H; [reflexivity |].
  rewrite trimEnd_cons by (apply H; now left).
  rewrite IH; [reflexivity |]. intros c Hc. apply H. now right.
Qed.

Lemma trim_plain (s : string) :
  (forall c, In c (list_ascii_of_string s) -> JS.isWhiteSpace c = false) ->
  JS.trim s = s.
Proof.
  intros H. unfold JS.trim.
  assert (Hs : JS.trimStart s = s).
  { destruct s as [|a s]; [reflexivity |]. cbn [JS.trimStart].
    now rewrite (H a (or_introl eq_refl)). }
  rewrite Hs. now apply trimEnd_plain.
Qed.

Lemma wordChar_not_space (c : ascii) :
  JS.isWordChar c = true -> JS.isWhiteSpace c = false.
Proof.
  destruct c as [[] [] [] [] [] [] [] []]; vm_compute; congruence.
Qed.

Lemma slice_chars (n : nat) (c : ascii) (s : string) :
  In c (list_ascii_of_string (JS.slice n s)) -> In c (list_ascii_of_string s).
Proof.
  revert s. induction n as [|n IH]; intros s; [auto |].
  destruct s as [|a s]; cbn [JS.slice]; [auto |]. intros H. right. auto.
Qed.

(** A piece of a split has no separator, and only characters of the
    string. *)
Lemma split_piece (sep : ascii) (s piece : string) :
  In piece (JS.split sep s) ->
  ~ In sep (list_ascii_of_string piece)
  /\ forall c, In c (list_ascii_of_string piece) -> In c (list_ascii_of_string s).
Proof.
  revert piece. induction s as [|a s IH]; intros piece; cbn [JS.split].
  - intros [<- | []]. split; [intros [] | auto].
  - destruct (Ascii.eqb_spec a sep) as [-> | Hne].
    + intros [<- | H]; [split; [intros [] | intros c []] |].
      destruct (IH _ H) as [H1 H2]. split; [exact H1 |].
      intros c Hc. right. auto.
    + destruct (split_cons sep s) as (h & t & Hs). rewrite Hs in *.
      intros [<- | H].
      * destruct (IH h (or_introl eq_refl)) as [H1 H2]. split.
        -- intros [Heq | Hin]; [congruence | contradiction].
        -- intros c [<- | Hc]; [now left | right; auto].
      * destruct (IH piece (or_intror H)) as [H1 H2]. split; [exact H1 |].
        intros c Hc. right. auto.
Qed.

Lemma spanWord_word (s w rest : string) :
  JS.spanWord s = (w, rest) ->
  forall c, In c (list_ascii_of_string w) -> JS.isWordChar c = true.
Proof.
  revert w. induction s as [|a s IH]; intros w; cbn [JS.spanWord].
  - intros [= <- <-] c [].
  - destruct (JS.isWordChar a) eqn:Ha.
    + destruct (JS.spanWord s) as [w' r] eqn:Hs. intros [= <- <-] c [<- | Hc];
        [exact Ha | eauto].
    + intros [= <- <-] c [].
Qed.

(** An inline hashtag is a non-empty run of word characters. *)
Lemma inlineCandidates_word (s w : string) :
  In w (Spec.inlineCandidates s) ->
  w <> "" /\ forall c, In c (list_ascii_of_string w) -> JS.isWordChar c = true.
Proof.
  induction s as [|a s IH]; cbn [Spec.inlineCandidates]; [intros [] |].
  destruct (Ascii.eqb a HASH); [|exact IH].
  destruct (JS.spanWord s) as [[|b u] r] eqn:Hs; [exact IH |].
  intros [<- | H]; [|auto]. split; [discriminate |].
  eapply spanWord_word, Hs.
Qed.

(** The hashtags of a suffix are hashtags of the text. *)
Lemma inlineCandidates_suffix (a s w : string) :
  In w (Spec.inlineCandidates s) -> In w (Spec.inlineCandidates (a +:+ s)).
Proof.
  intros H. induction a as [|c a IH]; [exact H |].
  rewrite app_cons. cbn [Spec.inlineCandidates].
  destruct (Ascii.eqb c HASH); [|exact IH].
  destruct (JS.spanWord (a +:+ s)) as [[|b u] r]; [exact IH | now right].
Qed.

Lemma spanWord_stop (s : string) :
  (s = "" \/ exists c r, s = String c r /\ JS.isWordChar c = false) ->
  JS.spanWord s = ("", s).
Proof.
  intros [-> | (c & r & -> & Hc)]; cbn [JS.spanWord]; [reflexivity |].
  now rewrite Hc.
Qed.

Lemma spanWord_app (t b : string) :
  (forall c, In c (list_ascii_of_string t) -> JS.isWordChar c = true) ->
  JS.spanWord b = ("", b) ->
  JS.spanWord (t +:+ b) = (t, b).
Proof.
  intros Ht Hb. induction t as [|c t IH]; [exact Hb |].
  rewrite app_cons. cbn [JS.spanWord].
  rewrite (Ht c (or_introl eq_refl)), IH; [reflexivity |].
  intros x Hx. apply Ht. now right.
Qed.

(** ** The script's computations in closed form *)

Lemma logged_nil (w : World) : logged [] w = w.
Proof. destruct w. unfold logged. cbn. now rewrite app_nil_r. Qed.

Lemma logged_logged (a b : list Entry) (w : World) :
  logged b (logged a w) = logged (a ++ b) w.
Proof. unfold logged. cbn. now rewrite app_assoc. Qed.

Lemma parseMarkdownFile_reads (filePath content : string) (w : World) :
  files w !! filePath = Some content ->
  parseMarkdownFile filePath w = (Ok (document filePath content), w).
Proof.
  intros Hread. unfold parseMarkdownFile, try_catch, bind, fs.readFile.
  rewrite Hread. unfold document.
  destruct (split_cons LF content) as (line0 & rest & Hsplit).
  rewrite Hsplit. cbn [hd tl]. unfold ret.
  rewrite bulletTags_flat_map, matchAll_hashtags_spec, Set_of_firstOccurrences.
  cbn [app]. unfold Spec.tagsOf, Spec.bulletCandidates. rewrite Hsplit.
  destruct (JS.startsWith "# " line0); cbn [andb falsy]; [|reflexivity].
  destruct (JS.trim (JS.slice 2 line0)) as [|c t]; reflexivity.
Qed.

Lemma parseMarkdownFile_missing (filePath : string) (w : World) :
  files w !! filePath = None ->
  parseMarkdownFile filePath w
  = (Throw (readError filePath), logged [readErrorLine filePath] w).
Proof.
  intros Hread. unfold parseMarkdownFile, try_catch, bind, fs.readFile.
  rewrite Hread. reflexivity.
Qed.

Lemma factsLoop_collect (dir : string) (names : list string) :
  forall (facts : list Fact) (w : World),
    factsLoop dir names facts w
    = match collect (files w) dir names with
      | (Ok new, extra) => (Ok (facts ++ new), logged extra w)
      | (Throw e, extra) => (Throw e, logged extra w)
      end.
Proof.
  induction names as [|file rest IH]; intros facts w; cbn [factsLoop collect].
  - unfold ret. now rewrite app_nil_r, logged_nil.
  - destruct (String.eqb (path_extname file) ".md"); [|apply IH].
    unfold bind. destruct (files w !! path_join dir file) as [content|] eqn:Hread.
    + rewrite (parseMarkdownFile_reads _ _ _ Hread).
      fold (unfinished (document (path_join dir file) content)).
      destruct (unfinished _); cbn [negb]; rewrite IH;
        destruct (collect (files w) dir rest) as [[new | e] extra];
        try reflexivity.
      now rewrite <- app_assoc.
    + now rewrite (parseMarkdownFile_missing _ _ Hread).
Qed.

Lemma rulesLoop_collect (dir : string) (names : list string) :
  forall (rules : list string) (w : World),
    rulesLoop dir names rules w
    = match collect (files w) dir names with
      | (Ok new, extra) => (Ok (addRules rules new), logged extra w)
      | (Throw e, extra) => (Throw e, logged extra w)
      end.
Proof.
  induction names as [|file rest IH]; intros rules w; cbn [rulesLoop collect].
  - unfold ret. now rewrite logged_nil.
  - destruct (String.eqb (path_extname file) ".md"); [|apply IH].
    unfold bind. destruct (files w !! path_join dir file) as [content|] eqn:Hread.
    + rewrite (parseMarkdownFile_reads _ _ _ Hread).
      fold (unfinished (document (path_join dir file) content)).
      destruct (unfinished _); cbn [negb]; rewrite IH;
        destruct (collect (files w) dir rest) as [[new | e] extra];
        reflexivity.
    + now rewrite (parseMarkdownFile_missing _ _ Hread).
Qed.

(** A loop that gathers its facts logs nothing. *)
Lemma collect_Ok_quiet (fm : gmap string string) (dir : string)
    (names : list string) (facts : list Fact) (extra : list Entry) :
  collect fm dir names = (Ok facts, extra) -> extra = [].
Proof.
  revert facts. induction names as [|file rest IH]; intros facts; cbn [collect].
  - now intros [= _ <-].
  - destruct (String.eqb (path_extname file) ".md"); [|apply IH].
    destruct (fm !! path_join dir file); [|discriminate].
    destruct (collect fm dir rest) as [[new | e] ex]; [|discriminate].
    intros [= _ <-]. eauto.
Qed.

(** ** The set of rule keys *)

Lemma addTagRules_fold (f : Fact) (rules : list string) :
  addTagRules f rules
  = fold_left (fun st k => JS.Set_add k st)
      (map (fun tag => JSON.stringify (tagRule tag f)) (tags f)) rules.
Proof.
  unfold addTagRules. revert rules.
  induction (tags f) as [|tag l IH]; intros rules; [reflexivity |].
  cbn [fold_left map]. now rewrite guarded_add, IH.
Qed.

Lemma addRules_fold (facts : list Fact) (rules : list string) :
  addRules rules facts
  = fold_left (fun st k => JS.Set_add k st) (flat_map factKeys facts) rules.
Proof.
  unfold addRules. revert rules.
  induction facts as [|f facts IH]; intros rules; [reflexivity |].
  cbn [fold_left flat_map]. rewrite fold_left_app, IH. f_equal.
  unfold addBodyRule, factKeys, factRules.
  rewrite guarded_add, addTagRules_fold, map_app, map_map, fold_left_app.
  reflexivity.
Qed.

Lemma addRules_firstOccurrences (facts : list Fact) :
  addRules [] facts = Spec.firstOccurrences (flat_map factKeys facts).
Proof.
  rewrite addRules_fold. apply Set_of_firstOccurrences.
Qed.

Lemma parseAll_keys (keys : list string) (w : World) :
  (forall k, In k keys -> exists rule, k = JSON.stringify rule) ->
  exists objects,
    parseAll keys w = (Ok objects, w) /\ map JSON.stringify objects = keys.
Proof.
  induction keys as [|k keys IH]; intros Hkeys; cbn [parseAll].
  - exists []. split; reflexivity.
  - destruct (Hkeys k (or_introl eq_refl)) as [rule ->].
    destruct IH as (objects & Hrun & Hmap); [intros; apply Hkeys; now right |].
    rewrite parse_stringify. unfold bind. rewrite Hrun.
    exists (rule :: objects). split; [reflexivity | cbn [map]; now rewrite Hmap].
Qed.

Lemma factKeys_serialized (facts : list Fact) (k : string) :
  In k (Spec.firstOccurrences (flat_map factKeys facts)) ->
  exists rule, k = JSON.stringify rule.
Proof.
  rewrite firstOccurrences_In, in_flat_map. intros (f & _ & Hk).
  unfold factKeys in Hk. apply in_map_iff in Hk as (rule & <- & _). eauto.
Qed.

(** ** The two passes *)

Lemma factsPass_closed (dir : string) (w : World) :
  factsPass dir w
  = match dirs w !! dir with
    | None => (Throw (ENOENT "scandir" dir), w)
    | Some names =>
        match collect (files w) dir names with
        | (Ok facts, extra) => (Ok facts, logged extra w)
        | (Throw e, extra) => (Throw e, logged extra w)
        end
    end.
Proof.
  unfold factsPass, bind, fs.readdir.
  destruct (dirs w !! dir) as [names|]; [|reflexivity].
  rewrite factsLoop_collect. reflexivity.
Qed.

Lemma factsPass_Ok (dir : string) (w w' : World) (facts : list Fact) :
  factsPass dir w = (Ok facts, w') ->
  w' = w /\ exists names,
    dirs w !! dir = Some names /\ collect (files w) dir names = (Ok facts, []).
Proof.
  rewrite factsPass_closed. destruct (dirs w !! dir) as [names|]; [|discriminate].
  destruct (collect (files w) dir names) as [[new | e] extra] eqn:Hc;
    [|discriminate].
  pose proof (collect_Ok_quiet _ _ _ _ _ Hc) as ->. rewrite logged_nil.
  intros [= <- <-]. eauto.
Qed.

Lemma rulesPass_Ok (dir : string) (w : World) (names : list string)
    (facts : list Fact) :
  dirs w !! dir = Some names ->
  collect (files w) dir names = (Ok facts, []) ->
  exists objects,
    rulesPass dir w = (Ok objects, w)
    /\ map JSON.stringify objects
       = Spec.firstOccurrences (flat_map factKeys facts).
Proof.
  intros Hdir Hc. unfold rulesPass, bind, fs.readdir. rewrite Hdir.
  rewrite rulesLoop_collect, Hc, logged_nil, addRules_firstOccurrences.
  apply parseAll_keys. apply factKeys_serialized.
Qed.

Lemma rulesPass_Throw (dir : string) (w w' : World) (e : Error) :
  rulesPass dir w = (Throw e, w') ->
  fst (factsPass dir w) = Throw e /\ w' = snd (factsPass dir w).
Proof.
  rewrite factsPass_closed. unfold rulesPass, bind, fs.readdir.
  destruct (dirs w !! dir) as [names|]; [|now intros [= <- <-]].
  rewrite rulesLoop_collect.
  destruct (collect (files w) dir names) as [[new | e'] extra] eqn:Hc.
  - pose proof (collect_Ok_quiet _ _ _ _ _ Hc) as ->.
    rewrite addRules_firstOccurrences.
    destruct (parseAll_keys _ (logged [] w) (factKeys_serialized new))
      as (objects & -> & _). discriminate.
  - now intros [= <- <-].
Qed.

Lemma generateFactsJSON_closed (dir out : string) (w : World) :
  generateFactsJSON dir out w
  = match factsPass dir w with
    | (Ok facts, w') =>
        if decide (out ∈ locked w')
        then (Ok tt, logged [ErrorLine "Error generating facts JSON:"
                               (EACCES "open" out)] w')
        else (Ok tt,
              logged [LogLine ("Facts JSON generated at " +:+ out)]
                (snd (fs.writeFile out
                        (JSON.stringify2 (JArray (map fact_json facts))) w')))
    | (Throw e, w') =>
        (Ok tt, logged [ErrorLine "Error generating facts JSON:" e] w')
    end.
Proof.
  unfold generateFactsJSON, factsPass, try_catch, bind.
  destruct (fs.readdir dir w) as [[names | e] w1]; [|reflexivity].
  destruct (factsLoop dir names [] w1) as [[facts | e] w2]; [|reflexivity].
  unfold fs.writeFile. destruct (decide (out ∈ locked w2)); reflexivity.
Qed.

Lemma generateRulesJSON_closed (dir out : string) (w : World) :
  generateRulesJSON dir out w
  = match rulesPass dir w with
    | (Ok objects, w') =>
        if decide (out ∈ locked w')
        then (Ok tt, logged [ErrorLine "Error generating rules JSON:"
                               (EACCES "open" out)] w')
        else (Ok tt,
              logged [LogLine ("Rules JSON generated at " +:+ out)]
                (snd (fs.writeFile out (JSON.stringify2 (JArray objects)) w')))
    | (Throw e, w') =>
        (Ok tt, logged [ErrorLine "Error generating rules JSON:" e] w')
    end.
Proof.
  unfold generateRulesJSON, rulesPass, try_catch, bind.
  destruct (fs.readdir dir w) as [[names | e] w1]; [|reflexivity].
  destruct (rulesLoop dir names [] w1) as [[rules | e] w2]; [|reflexivity].
  destruct (parseAll rules w2) as [[objects | e] w3]; [|reflexivity].
  unfold fs.writeFile. destruct (decide (out ∈ locked w3)); reflexivity.
Qed.

(** ** What a pass depends on *)

Lemma parseAll_world (keys : list string) (w w0 : World) :
  parseAll keys w = (fst (parseAll keys w0), w).
Proof.
  induction keys as [|k keys IH]; cbn [parseAll]; [reflexivity |].
  destruct (JSON.parse k); [|reflexivity].
  unfold bind. rewrite IH. destruct (parseAll keys w0) as [[vs | e] w1]; reflexivity.
Qed.

Lemma rulesPass_closed (dir : string) (w : World) :
  rulesPass dir w
  = match dirs w !! dir with
    | None => (Throw (ENOENT "scandir" dir), w)
    | Some names =>
        match collect (files w) dir names with
        | (Ok facts, extra) =>
            (fst (parseAll (addRules [] facts) w), logged extra w)
        | (Throw e, extra) => (Throw e, logged extra w)
        end
    end.
Proof.
  unfold rulesPass, bind, fs.readdir.
  destruct (dirs w !! dir) as [names|]; [|reflexivity].
  rewrite rulesLoop_collect.
  destruct (collect (files w) dir names) as [[facts | e] extra]; [|reflexivity].
  rewrite (parseAll_world _ _ w).
  destruct (parseAll (addRules [] facts) w) as [[vs | e] w1]; reflexivity.
Qed.

Lemma collect_agree (fm fm' : gmap string string) (dir : string)
    (names : list string) :
  (forall file, In file names -> path_extname file = ".md" ->
     fm !! path_join dir file = fm' !! path_join dir file) ->
  collect fm dir names = collect fm' dir names.
Proof.
  induction names as [|file rest IH]; intros Hagree; [reflexivity |].
  cbn [collect]. rewrite IH by (intros; apply Hagree; [now right | assumption]).
  destruct (String.eqb_spec (path_extname file) ".md") as [Hext|]; [|reflexivity].
  now rewrite (Hagree file (or_introl eq_refl) Hext).
Qed.

(** A listed document that carries the UNFINISHED tag leaves the loop as it
    would be without it. *)
Lemma collect_remove (fm : gmap string string) (dir file content : string)
    (before after : list string) :
  path_extname file = ".md" ->
  fm !! path_join dir file = Some content ->
  unfinished (document (path_join dir file) content) = true ->
  collect fm dir (before ++ file :: after) = collect fm dir (before ++ after).
Proof.
  intros Hext Hread Hun. induction before as [|x before IH]; cbn [app collect].
  - rewrite Hext, Hread, Hun. cbn [String.eqb].
    replace (String.eqb ".md" ".md") with true by reflexivity.
    destruct (collect fm dir after) as [[facts | e] extra]; reflexivity.
  - now rewrite IH.
Qed.

Lemma inputsAgree_refl (dir : string) (w : World) : inputsAgree dir w w.
Proof. split; [reflexivity | intros; reflexivity]. Qed.

Lemma factsPass_agree (dir : string) (w w' : World) :
  inputsAgree dir w w' ->
  exists r extra,
    factsPass dir w = (r, logged extra w)
    /\ factsPass dir w' = (r, logged extra w').
Proof.
  intros [Hdir Hfiles]. rewrite !factsPass_closed, <- Hdir.
  destruct (dirs w !! dir) as [names|] eqn:Hnames.
  - rewrite <- (collect_agree (files w) (files w')) by eauto.
    destruct (collect (files w) dir names) as [[facts | e] extra]; eauto.
  - exists (Throw (ENOENT "scandir" dir)), []. now rewrite !logged_nil.
Qed.

Lemma rulesPass_agree (dir : string) (w w' : World) :
  inputsAgree dir w w' ->
  exists r extra,
    rulesPass dir w = (r, logged extra w)
    /\ rulesPass dir w' = (r, logged extra w').
Proof.
  intros [Hdir Hfiles]. rewrite !rulesPass_closed, <- Hdir.
  destruct (dirs w !! dir) as [names|] eqn:Hnames.
  - rewrite <- (collect_agree (files w) (files w')) by eauto.
    destruct (collect (files w) dir names) as [[facts | e] extra]; [|eauto].
    rewrite (parseAll_world _ w' w). cbn [fst]. eauto.
  - exists (Throw (ENOENT "scandir" dir)), []. now rewrite !logged_nil.
Qed.

(** The change a pass makes to the files: none, or one file written. *)
Lemma generateFactsJSON_effect (dir out : string) (w : World) :
  exists upd : option string,
    forall w', inputsAgree dir w w' -> locked w' = locked w ->
      files (exec (generateFactsJSON dir out) w')
      = match upd with
        | Some text => <[out := text]> (files w')
        | None => files w'
        end
      /\ dirs (exec (generateFactsJSON dir out) w') = dirs w'
      /\ locked (exec (generateFactsJSON dir out) w') = locked w'.
Proof.
  destruct (factsPass dir w) as [r w1] eqn:Hrun.
  exists (match r with
          | Ok facts => if decide (out ∈ locked w) then None
                        else Some (JSON.stringify2 (JArray (map fact_json facts)))
          | Throw _ => None
          end).
  intros w' Hagree Hlocked.
  destruct (factsPass_agree _ _ _ Hagree) as (r' & extra & Hw & Hw').
  rewrite Hw in Hrun. injection Hrun as -> _.
  unfold exec. rewrite generateFactsJSON_closed, Hw'.
  destruct r as [facts | e]; [|cbn; auto].
  cbn [locked logged]. rewrite Hlocked.
  destruct (decide (out ∈ locked w)) as [Hin | Hout]; [cbn; auto |].
  unfold fs.writeFile. cbn [locked logged]. rewrite Hlocked.
  destruct (decide (out ∈ locked w)); [contradiction | cbn; auto].
Qed.

Lemma generateRulesJSON_effect (dir out : string) (w : World) :
  exists upd : option string,
    forall w', inputsAgree dir w w' -> locked w' = locked w ->
      files (exec (generateRulesJSON dir out) w')
      = match upd with
        | Some text => <[out := text]> (files w')
        | None => files w'
        end
      /\ dirs (exec (generateRulesJSON dir out) w') = dirs w'
      /\ locked (exec (generateRulesJSON dir out) w') = locked w'.
Proof.
  destruct (rulesPass dir w) as [r w1] eqn:Hrun.
  exists (match r with
          | Ok objects => if decide (out ∈ locked w) then None
                          else Some (JSON.stringify2 (JArray objects))
          | Throw _ => None
          end).
  intros w' Hagree Hlocked.
  destruct (rulesPass_agree _ _ _ Hagree) as (r' & extra & Hw & Hw').
  rewrite Hw in Hrun. injection Hrun as -> _.
  unfold exec. rewrite generateRulesJSON_closed, Hw'.
  destruct r as [objects | e]; [|cbn; auto].
  cbn [locked logged]. rewrite Hlocked.
  destruct (decide (out ∈ locked w)) as [Hin | Hout]; [cbn; auto |].
  unfold fs.writeFile. cbn [locked logged]. rewrite Hlocked.
  destruct (decide (out ∈ locked w)); [contradiction | cbn; auto].
Qed.

(** ** Exceptions *)

Lemma generateFactsJSON_result (dir out : string) (w : World) :
  result (generateFactsJSON dir out) w = Ok tt.
Proof.
  unfold result. rewrite generateFactsJSON_closed.
  destruct (factsPass dir w) as [[facts | e] w']; [|reflexivity].
  destruct (decide (out ∈ locked w')); reflexivity.
Qed.

Lemma generateRulesJSON_result (dir out : string) (w : World) :
  result (generateRulesJSON dir out) w = Ok tt.
Proof.
  unfold result. rewrite generateRulesJSON_closed.
  destruct (rulesPass dir w) as [[objects | e] w']; [|reflexivity].
  destruct (decide (out ∈ locked w')); reflexivity.
Qed.

Lemma main_closed (w : World) :
  main w
  = (Ok tt,
     exec (generateRulesJSON markdownDir rulesOutputFile)
       (exec (generateFactsJSON markdownDir factsOutputFile) w)).
Proof.
  unfold main, try_catch, bind, exec.
  pose proof (generateFactsJSON_result markdownDir factsOutputFile w) as Hf.
  unfold result in Hf.
  destruct (generateFactsJSON markdownDir factsOutputFile w) as [r1 w1].
  cbn [fst snd] in *. subst r1.
  pose proof (generateRulesJSON_result markdownDir rulesOutputFile w1) as Hr.
  unfold result in Hr.
  destruct (generateRulesJSON markdownDir rulesOutputFile w1) as [r2 w2].
  cbn [fst snd] in *. now subst r2.
Qed.

Lemma collect_missing (fm : gmap string string) (dir file : string)
    (names : list string) :
  In file names -> path_extname file = ".md" ->
  fm !! path_join dir file = None ->
  exists e extra, collect fm dir names = (Throw e, extra).
Proof.
  intros Hin Hext Hread. induction names as [|x rest IH]; [destruct Hin |].
  cbn [collect]. destruct Hin as [-> | Hin].
  - rewrite Hext, Hread. cbn. eauto.
  - destruct (IH Hin) as (e & extra & ->).
    destruct (String.eqb (path_extname x) ".md"); [|eauto].
    destruct (fm !! path_join dir x); eauto.
Qed.

Lemma collect_In (fm : gmap string string) (dir file content : string)
    (names : list string) (facts : list Fact) (extra : list Entry) :
  collect fm dir names = (Ok facts, extra) ->
  In file names -> path_extname file = ".md" ->
  fm !! path_join dir file = Some content ->
  unfinished (document (path_join dir file) content) = false ->
  In (document (path_join dir file) content) facts.
Proof.
  intros Hc Hin Hext Hread Hun. revert facts Hc.
  induction names as [|x rest IH]; intros facts; [destruct Hin |].
  cbn [collect].
  destruct (String.eqb_spec (path_extname x) ".md") as [Hx | Hx].
  - destruct (fm !! path_join dir x) as [cx|] eqn:Hrx; [|discriminate].
    destruct (collect fm dir rest) as [[new | e] ex]; [|discriminate].
    intros [= <- <-]. destruct Hin as [-> | Hin].
    + rewrite Hread in Hrx. injection Hrx as <-. rewrite Hun. now left.
    + specialize (IH Hin new eq_refl).
      destruct (unfinished (document (path_join dir x) cx)); [exact IH | now right].
  - destruct Hin as [-> | Hin]; [contradiction |]. intros Hc. now apply IH.
Qed.

(** ** More on what a loop gathers *)

Lemma collect_skip (fm : gmap string string) (dir file : string)
    (before after : list string) :
  path_extname file <> ".md" ->
  collect fm dir (before ++ file :: after) = collect fm dir (before ++ after).
Proof.
  intros Hext. induction before as [|x before IH]; cbn [app collect].
  - destruct (String.eqb_spec (path_extname file) ".md"); [contradiction | reflexivity].
  - now rewrite IH.
Qed.

Lemma collect_no_markdown (fm : gmap string string) (dir : string)
    (names : list string) :
  (forall file, In file names -> path_extname file <> ".md") ->
  collect fm dir names = (Ok [], []).
Proof.
  induction names as [|x names IH]; intros H; [reflexivity |]. cbn [collect].
  destruct (String.eqb_spec (path_extname x) ".md") as [Hx | _].
  - destruct (H x (or_introl eq_refl) Hx).
  - apply IH. intros file Hin. apply H. now right.
Qed.

(** Every fact a loop keeps is the document of a listed, readable Markdown
    file and lacks the UNFINISHED tag. *)
Lemma collect_kept (fm : gmap string string) (dir : string)
    (names : list string) (facts : list Fact) (extra : list Entry) (f : Fact) :
  collect fm dir names = (Ok facts, extra) -> In f facts ->
  unfinished f = false
  /\ exists file content,
       In file names /\ path_extname file = ".md"
       /\ fm !! path_join dir file = Some content
       /\ f = document (path_join dir file) content.
Proof.
  revert facts. induction names as [|x names IH]; intros facts; cbn [collect].
  - intros [= <- _] [].
  - destruct (String.eqb_spec (path_extname x) ".md") as [Hx | Hx].
    + destruct (fm !! path_join dir x) as [cx|] eqn:Hrx; [|discriminate].
      destruct (collect fm dir names) as [[new | e] ex]; [|discriminate].
      intros [= <- <-] Hin.
      assert (Hrest : In f new -> unfinished f = false
                /\ exists file content,
                     In file (x :: names) /\ path_extname file = ".md"
                     /\ fm !! path_join dir file = Some content
                     /\ f = document (path_join dir file) content).
      { intros Hnew. destruct (IH new eq_refl Hnew)
          as (Hun & file & content & Hfile & Hrest).
        split; [exact Hun |]. exists file, content. split; [now right | exact Hrest]. }
      destruct (unfinished (document (path_join dir x) cx)) eqn:Hun;
        [now apply Hrest |].
      destruct Hin as [<- | Hin]; [|now apply Hrest].
      split; [exact Hun |]. exists x, cx. split; [now left | auto].
    + intros Hc Hin. destruct (IH facts Hc Hin)
        as (Hun & file & content & Hfile & Hrest).
      split; [exact Hun |]. exists file, content. split; [now right | exact Hrest].
Qed.

(** The loop stops at the first Markdown file it cannot read. *)
Lemma collect_first_missing (fm : gmap string string) (dir file : string)
    (before after : list string) :
  (forall x, In x before -> path_extname x = ".md" ->
     is_Some (fm !! path_join dir x)) ->
  path_extname file = ".md" ->
  fm !! path_join dir file = None ->
  collect fm dir (before ++ file :: after)
  = (Throw (readError (path_join dir file)),
     [readErrorLine (path_join dir file)]).
Proof.
  intros Hbefore Hext Hread. induction before as [|x before IH]; cbn [app collect].
  - rewrite Hext, Hread. reflexivity.
  - rewrite IH by (intros; apply Hbefore; [now right | assumption]).
    destruct (String.eqb_spec (path_extname x) ".md") as [Hx|]; [|reflexivity].
    destruct (Hbefore x (or_introl eq_refl) Hx) as [cx ->]. reflexivity.
Qed.

(** The loop over files that all parse keeps, in order, the facts without the
    UNFINISHED tag. *)
Lemma collect_parsed (w : World) (dir : string) (names : list string)
    (parsed : list Fact) :
  Forall2 (fun file fact =>
             parseMarkdownFile (path_join dir file) w = (Ok fact, w))
          (List.filter (fun file => String.eqb (path_extname file) ".md") names)
          parsed ->
  collect (files w) dir names
  = (Ok (List.filter (fun f => negb (JS.includes "UNFINISHED" (tags f))) parsed),
     []).
Proof.
  revert parsed. induction names as [|x names IH]; intros parsed;
    cbn [List.filter collect].
  - intros H. inversion H. reflexivity.
  - destruct (String.eqb (path_extname x) ".md"); [|apply IH].
    intros H. inversion H as [|? fact ? rest Hx Hrest]; subst.
    destruct (files w !! path_join dir x) as [cx|] eqn:Hread.
    + rewrite (parseMarkdownFile_reads _ _ _ Hread) in Hx.
      injection Hx as <-. rewrite (IH _ Hrest). cbn [List.filter].
      fold (unfinished (document (path_join dir x) cx)).
      now destruct (unfinished _).
    + rewrite (parseMarkdownFile_missing _ _ Hread) in Hx. discriminate.
Qed.

Lemma firstOccurrences_NoDup_id (l : list string) :
  List.NoDup l -> Spec.firstOccurrences l = l.
Proof.
  induction 1 as [|x l Hx Hl IH]; [reflexivity |].
  cbn [Spec.firstOccurrences]. rewrite IH. f_equal.
  clear -Hx. induction l as [|y l IH]; [reflexivity |]. cbn [List.filter].
  destruct (String.eqb_spec y x) as [-> | _]; cbn [negb].
  - destruct Hx. now left.
  - f_equal. apply IH. intros H. apply Hx. now right.
Qed.

Lemma tagRule_tag_inj (t1 t2 : string) (f1 f2 : Fact) :
  tagRule t1 f1 = tagRule t2 f2 -> t1 = t2.
Proof. unfold tagRule. now intros [= -> _]. Qed.

Lemma NoDup_map_injective {A B} (f : A -> B) (l : list A) :
  (forall x y, In x l -> In y l -> f x = f y -> x = y) ->
  List.NoDup l -> List.NoDup (map f l).
Proof.
  intros Hinj Hl. induction Hl as [|x l Hx Hl IH]; cbn [map]; constructor.
  - intros Hin. apply in_map_iff in Hin as (y & Heq & Hy).
    apply Hinj in Heq; [subst; contradiction | now right | now left].
  - apply IH. intros a b Ha Hb. apply Hinj; now right.
Qed.

Lemma factRules_NoDup (f : Fact) :
  List.NoDup (tags f) -> List.NoDup (factRules f).
Proof.
  intros Ht. unfold factRules. apply List.NoDup_app.
  - apply NoDup_map_injective; [|exact Ht].
    intros t1 t2 _ _. apply tagRule_tag_inj.
  - repeat constructor. intros [].
  - intros rule Hin [<- | []]. apply in_map_iff in Hin as (t & Heq & _).
    unfold tagRule, bodyRule in Heq. discriminate.
Qed.

(** A rule two facts have in common carries the title and body of both. *)
Lemma factRules_same (f1 f2 : Fact) (rule : json) :
  In rule (factRules f1) -> In rule (factRules f2) ->
  title f1 = title f2 /\ body f1 = body f2.
Proof.
  unfold factRules. intros H1 H2.
  apply in_app_or in H1 as [H1 | [<- | []]];
    apply in_app_or in H2 as [H2 | [H2 | []]].
  - apply in_map_iff in H1 as (t1 & <- & _).
    apply in_map_iff in H2 as (t2 & H2 & _).
    unfold tagRule in H2. injection H2 as _ _ Ht Hb. auto.
  - apply in_map_iff in H1 as (t1 & <- & _).
    unfold tagRule, bodyRule in H2. discriminate.
  - apply in_map_iff in H2 as (t2 & H2 & _).
    unfold tagRule, bodyRule in H2. discriminate.
  - unfold bodyRule in H2. injection H2 as Hb Ht _. auto.
Qed.

Lemma flat_map_factRules_NoDup (facts : list Fact) :
  (forall f, In f facts -> List.NoDup (tags f)) ->
  List.NoDup (map (fun f => (title f, body f)) facts) ->
  List.NoDup (flat_map factRules facts).
Proof.
  intros Htags Hpairs. induction facts as [|f facts IH]; [constructor |].
  cbn [flat_map map] in *. inversion Hpairs as [|? ? Hf Hrest]; subst.
  apply List.NoDup_app.
  - apply factRules_NoDup, Htags. now left.
  - apply IH; [intros; apply Htags; now right | exact Hrest].
  - intros rule H1 H2. apply in_flat_map in H2 as (f' & Hf' & H2).
    destruct (factRules_same _ _ _ H1 H2) as [Ht Hb]. apply Hf.
    apply in_map_iff. exists f'. split; [now rewrite Ht, Hb | exact Hf'].
Qed.

(** A loop that fails logs error lines only. *)
Lemma collect_Throw_lines (fm : gmap string string) (dir : string)
    (names : list string) (e : Error) (extra : list Entry) :
  collect fm dir names = (Throw e, extra) ->
  forall m, ~ In (LogLine m) extra.
Proof.
  induction names as [|x names IH]; cbn [collect]; [discriminate |].
  destruct (String.eqb (path_extname x) ".md"); [|exact IH].
  destruct (fm !! path_join dir x).
  - destruct (collect fm dir names) as [[new | e'] ex]; [discriminate |].
    intros [= <- <-]. now apply IH.
  - intros [= <- <-] m [H | []]. discriminate.
Qed.

(** ** Rules in the output *)

Lemma lookup_In {A} (l : list A) (i : nat) (x : A) : l !! i = Some x -> In x l.
Proof. intros H. apply list_elem_of_In. eapply list_elem_of_lookup_2, H. Qed.

Lemma occursOnce_serialized (rule : json) (objects : list json) :
  List.NoDup (map JSON.stringify objects) ->
  In (JSON.stringify rule) (map JSON.stringify objects) ->
  occursOnce rule objects.
Proof.
  intros Hnd Hin. apply in_map_iff in Hin as (o & Ho & Hin).
  apply stringify_inj in Ho as ->.
  apply list_elem_of_In, list_elem_of_lookup in Hin as [i Hi].
  exists i. split; [exact Hi |]. intros j Hj.
  apply NoDup_map_inv, NoDup_ListNoDup in Hnd.
  eapply NoDup_lookup; eauto.
Qed.

Lemma factKeys_In (facts : list Fact) (f : Fact) (rule : json) :
  In f facts -> In rule (factRules f) ->
  In (JSON.stringify rule) (Spec.firstOccurrences (flat_map factKeys facts)).
Proof.
  intros Hf Hr. rewrite firstOccurrences_In, in_flat_map.
  exists f. split; [exact Hf |]. unfold factKeys. now apply in_map.
Qed.

Lemma tagRule_In (f : Fact) (tag : string) :
  In tag (tags f) -> In (tagRule tag f) (factRules f).
Proof.
  intros H. unfold factRules. apply in_or_app. left.
  now apply (in_map (fun t => tagRule t f)).
Qed.

Lemma bodyRule_In (f : Fact) : In (bodyRule f) (factRules f).
Proof. unfold factRules. apply in_or_app. right. now left. Qed.

Lemma tagRule_inj (tag : string) (f1 f2 : Fact) :
  tagRule tag f1 = tagRule tag f2 -> title f1 = title f2 /\ body f1 = body f2.
Proof. unfold tagRule. intros [= Ht Hb]. auto. Qed.

Lemma bodyRule_inj (f1 f2 : Fact) :
  bodyRule f1 = bodyRule f2 -> title f1 = title f2 /\ body f1 = body f2.
Proof. unfold bodyRule. intros [= Hb Ht _]. auto. Qed.

(** What a rules pass that completes leaves in the output file. *)
Lemma rules_written (dir out : string) (w : World) (objects : list json) :
  rulesPass dir w = (Ok objects, w) ->
  files (exec (generateRulesJSON dir out) w) !! out
  = if decide (out ∈ locked w) then files w !! out
    else Some (JSON.stringify2 (JArray objects)).
Proof.
  intros Hrun. unfold exec. rewrite generateRulesJSON_closed, Hrun.
  destruct (decide (out ∈ locked w)); cbn; [reflexivity |].
  unfold fs.writeFile. destruct (decide (out ∈ locked w)); [contradiction |].
  cbn. apply lookup_insert_eq.
Qed.

(** The rule objects of a pass whose facts are [facts]. *)
Lemma rulesPass_of_facts (dir : string) (w w' : World) (facts : list Fact) :
  factsPass dir w = (Ok facts, w') ->
  w' = w /\ exists objects,
    rulesPass dir w = (Ok objects, w)
    /\ List.NoDup (map JSON.stringify objects)
    /\ (forall f rule, In f facts -> In rule (factRules f) ->
          occursOnce rule objects)
    /\ (forall o, In o objects ->
          exists f, In f facts /\ In o (factRules f)).
Proof.
  intros Hf. apply factsPass_Ok in Hf as (-> & names & Hdir & Hc).
  split; [reflexivity |].
  destruct (rulesPass_Ok _ _ _ _ Hdir Hc) as (objects & Hrun & Hkeys).
  exists objects. split; [exact Hrun |].
  assert (Hnd : List.NoDup (map JSON.stringify objects)).
  { rewrite Hkeys. apply firstOccurrences_NoDup. }
  split; [exact Hnd |]. split.
  - intros f rule Hin Hr. apply occursOnce_serialized; [exact Hnd |].
    rewrite Hkeys. eapply factKeys_In; eauto.
  - intros o Ho. apply (in_map JSON.stringify) in Ho. rewrite Hkeys in Ho.
    apply firstOccurrences_In, in_flat_map in Ho as (f & Hf & Hk).
    exists f. split; [exact Hf |]. unfold factKeys in Hk.
    apply in_map_iff in Hk as (rule & Heq & Hr).
    apply stringify_inj in Heq as ->. exact Hr.
Qed.

(** C1: the rules of a run have pairwise different serializations of the
    whole object; two facts with the same title and body and a shared tag
    give one tag-match rule for that tag, two facts that share a tag and
    differ in title or body give two different ones. *)
Theorem rules_deduplicated (dir out : string) (w w' : World)
    (facts : list Fact) :
  factsPass dir w = (Ok facts, w') ->
  exists objects,
    rulesPass dir w = (Ok objects, w')
    /\ files (exec (generateRulesJSON dir out) w) !! out
       = (if decide (out ∈ locked w) then files w !! out
          else Some (JSON.stringify2 (JArray objects)))
    /\ List.NoDup (map JSON.stringify objects)
    /\ forall (i j : nat) (f1 f2 : Fact) (tag : string),
         facts !! i = Some f1 -> facts !! j = Some f2 -> i <> j ->
         In tag (tags f1) -> In tag (tags f2) ->
         occursOnce (tagRule tag f1) objects
         /\ occursOnce (tagRule tag f2) objects
         /\ if String.eqb (title f1) (title f2)
               && String.eqb (body f1) (body f2)
            then tagRule tag f1 = tagRule tag f2
            else tagRule tag f1 <> tagRule tag f2
                 /\ JSON.stringify (tagRule tag f1)
                    <> JSON.stringify (tagRule tag f2).
Proof.
  intros Hf.
  destruct (rulesPass_of_facts _ _ _ _ Hf) as (-> & objects & Hrun & Hnd & Hin & _).
  exists objects. split; [exact Hrun |].
  split; [now apply rules_written |]. split; [exact Hnd |].
  intros i j f1 f2 tag H1 H2 Hij Ht1 Ht2.
  split; [apply (Hin f1); [eapply lookup_In, H1 | now apply tagRule_In] |].
  split; [apply (Hin f2); [eapply lookup_In, H2 | now apply tagRule_In] |].
  destruct (String.eqb_spec (title f1) (title f2)) as [Ht | Ht]; cbn [andb].
  - destruct (String.eqb_spec (body f1) (body f2)) as [Hb | Hb].
    + unfold tagRule. now rewrite Ht, Hb.
    + split; [intros H%tagRule_inj | intros H%stringify_inj%tagRule_inj]; tauto.
  - split; [intros H%tagRule_inj | intros H%stringify_inj%tagRule_inj]; tauto.
Qed.

(** ** The parser *)

(** C2: the tag list is the candidates of the bullet lines followed by the
    inline hashtags of the whole text, trimmed, with first occurrences kept;
    the text with the line [- a - b] and the hashtags [#b #c] gives
    [a], [b], [c]. *)
Theorem tags_merged_deduplicated (filePath content : string) (w : World) :
  files w !! filePath = Some content ->
  exists fact,
    parseMarkdownFile filePath w = (Ok fact, w)
    /\ tags fact = Spec.tagsOf content
    /\ List.NoDup (tags fact)
    /\ (forall tag,
          In tag (tags fact)
          <-> In tag (map JS.trim (Spec.bulletCandidates content
                                   ++ Spec.inlineCandidates content)))
    /\ (content = "- a - b" +:+ String LF "#b #c" ->
        tags fact = ["a"; "b"; "c"]).
Proof.
  intros Hread. exists (document filePath content).
  split; [now apply parseMarkdownFile_reads |].
  split; [reflexivity |]. cbn [tags document].
  split; [apply firstOccurrences_NoDup |].
  split; [intros tag; apply firstOccurrences_In |].
  intros ->. reflexivity.
Qed.

(** C4, as the script has it: when the first line begins with the header
    marker, the title is the rest of that line, trimmed, unless that is
    empty, in which case it is the base name of the file; the body is the
    remaining lines joined by newlines, so the text is the first line,
    followed by a newline and the body when there are further lines. *)
Theorem header_title_and_body (filePath content line0 : string)
    (rest : list string) (w : World) :
  files w !! filePath = Some content ->
  JS.split LF content = line0 :: rest ->
  JS.startsWith "# " line0 = true ->
  exists fact,
    parseMarkdownFile filePath w = (Ok fact, w)
    /\ title fact
       = (if String.eqb (JS.trim (JS.slice 2 line0)) ""
          then path_basename filePath ".md"
          else JS.trim (JS.slice 2 line0))
    /\ body fact = JS.join (String LF "") rest
    /\ content = match rest with
                 | [] => line0
                 | _ :: _ => line0 +:+ String LF (body fact)
                 end.
Proof.
  intros Hread Hsplit Hhead. exists (document filePath content).
  split; [now apply parseMarkdownFile_reads |].
  unfold document. rewrite Hsplit. cbn [hd tl title body]. rewrite Hhead.
  split; [|split; [reflexivity |]].
  - cbn [andb]. destruct (String.eqb _ ""); reflexivity.
  - rewrite <- (join_split LF content) at 1. rewrite Hsplit.
    destruct rest; reflexivity.
Qed.

(** C6: when the first line does not begin with the header marker the title
    is the base name of the file and the body the whole text; the empty text
    is such a document, and parsing it resolves. *)
Theorem headerless_title (filePath content : string) (w : World) :
  files w !! filePath = Some content ->
  JS.startsWith "# " (hd EmptyString (JS.split LF content)) = false ->
  (exists fact,
     parseMarkdownFile filePath w = (Ok fact, w)
     /\ title fact = path_basename filePath ".md"
     /\ body fact = content)
  /\ JS.split LF "" = [""]
  /\ JS.startsWith "# " (hd EmptyString (JS.split LF "")) = false
  /\ (content = "" ->
      parseMarkdownFile filePath w
      = (Ok {| title := path_basename filePath ".md"; body := "";
               tags := []; htmlContent := marked_parse "" |}, w)).
Proof.
  intros Hread Hhead. split; [|split; [reflexivity | split; [reflexivity |]]].
  - exists (document filePath content).
    split; [now apply parseMarkdownFile_reads |].
    unfold document. cbn [title body]. rewrite Hhead. split; reflexivity.
  - intros ->. now rewrite (parseMarkdownFile_reads _ _ _ Hread).
Qed.

(** ** The passes *)

(** C3: a listed document whose tags include UNFINISHED adds nothing to
    either output: each pass leaves the world it would leave if the
    document were not listed, and gathers the same facts and rules. *)
Theorem unfinished_contributes_nothing (dir out file : string)
    (before after : list string) (fact : Fact) (w : World) :
  dirs w !! dir = Some (before ++ file :: after) ->
  path_extname file = ".md" ->
  result (parseMarkdownFile (path_join dir file)) w = Ok fact ->
  In "UNFINISHED" (tags fact) ->
  let w' := setListing dir (before ++ after) w in
  result (factsPass dir) w = result (factsPass dir) w'
  /\ result (rulesPass dir) w = result (rulesPass dir) w'
  /\ exec (generateFactsJSON dir out) w'
     = setListing dir (before ++ after) (exec (generateFactsJSON dir out) w)
  /\ exec (generateRulesJSON dir out) w'
     = setListing dir (before ++ after) (exec (generateRulesJSON dir out) w).
Proof.
  intros Hdir Hext Hparse Htag w'.
  destruct (files w !! path_join dir file) as [content|] eqn:Hread.
  2:{ unfold result in Hparse.
      now rewrite (parseMarkdownFile_missing _ _ Hread) in Hparse. }
  unfold result in Hparse.
  rewrite (parseMarkdownFile_reads _ _ _ Hread) in Hparse.
  injection Hparse as <-. apply includes_In in Htag.
  pose proof (collect_remove (files w) dir file content before after
                Hext Hread Htag) as Hcollect.
  assert (Hdir' : dirs w' !! dir = Some (before ++ after))
    by apply lookup_insert_eq.
  assert (Hf : factsPass dir w'
               = (fst (factsPass dir w),
                  setListing dir (before ++ after) (snd (factsPass dir w)))).
  { rewrite !factsPass_closed, Hdir, Hdir', Hcollect. cbn [files w' setListing].
    destruct (collect (files w) dir (before ++ after)) as [[facts | e] extra];
      reflexivity. }
  assert (Hr : rulesPass dir w'
               = (fst (rulesPass dir w),
                  setListing dir (before ++ after) (snd (rulesPass dir w)))).
  { rewrite !rulesPass_closed, Hdir, Hdir', Hcollect. cbn [files w' setListing].
    destruct (collect (files w) dir (before ++ after)) as [[facts | e] extra];
      [|reflexivity].
    now rewrite (parseAll_world _ w' w). }
  unfold result, exec.
  rewrite generateFactsJSON_closed, generateRulesJSON_closed.
  rewrite (generateFactsJSON_closed dir out w), (generateRulesJSON_closed dir out w).
  rewrite Hf, Hr.
  destruct (factsPass dir w) as [[facts | e1] w1];
    destruct (rulesPass dir w) as [[objects | e2] w2]; cbn [fst snd];
    repeat split; try reflexivity;
    cbn [locked setListing]; unfold fs.writeFile; cbn [locked setListing];
    match goal with
    | |- context [decide (out ∈ locked ?x)] =>
        destruct (decide (out ∈ locked x)); reflexivity
    end.
Qed.

(** C5, as the script has it: every fact of a run has exactly one body-match
    rule with its title and body in the output; two facts with the same body
    share that rule when their titles are the same, and have two different
    body-match rules, with the same condition, when their titles differ. *)
Theorem body_rule_per_title_and_body (dir : string) (w w' : World)
    (facts : list Fact) :
  factsPass dir w = (Ok facts, w') ->
  exists objects,
    rulesPass dir w = (Ok objects, w')
    /\ (forall f, In f facts ->
          occursOnce (bodyRule f) objects
          /\ conditionsOf (bodyRule f) = Some (bodyCondition (body f)))
    /\ (forall rule, In rule objects ->
          exists f, In f facts
                    /\ (rule = bodyRule f
                        \/ exists tag, In tag (tags f) /\ rule = tagRule tag f))
    /\ forall (i j : nat) (f1 f2 : Fact),
         facts !! i = Some f1 -> facts !! j = Some f2 ->
         body f1 = body f2 ->
         conditionsOf (bodyRule f1) = conditionsOf (bodyRule f2)
         /\ if String.eqb (title f1) (title f2)
            then bodyRule f1 = bodyRule f2
            else bodyRule f1 <> bodyRule f2
                 /\ JSON.stringify (bodyRule f1)
                    <> JSON.stringify (bodyRule f2).
Proof.
  intros Hf.
  destruct (rulesPass_of_facts _ _ _ _ Hf)
    as (-> & objects & Hrun & Hnd & Hin & Hfrom).
  exists objects. split; [exact Hrun |]. split; [|split].
  - intros f Hf'. split; [|reflexivity]. apply (Hin f _ Hf'), bodyRule_In.
  - intros rule Hrule. destruct (Hfrom rule Hrule) as (f & Hf' & Hr).
    exists f. split; [exact Hf' |]. unfold factRules in Hr.
    apply in_app_or in Hr as [Hr | [<- | []]]; [right | now left].
    apply in_map_iff in Hr as (tag & <- & Htag). eauto.
  - intros i j f1 f2 H1 H2 Hbody. split; [cbn; now rewrite Hbody |].
    destruct (String.eqb_spec (title f1) (title f2)) as [Ht | Ht].
    + unfold bodyRule. now rewrite Ht, Hbody.
    + split; [intros H%bodyRule_inj | intros H%stringify_inj%bodyRule_inj]; tauto.
Qed.

(** C7: when the first run leaves the input directory as it found it, a
    second run of the script leaves every file, and so the facts file and
    the rules file, as the first run left it. *)
Theorem generation_idempotent (w : World) :
  inputsAgree markdownDir w (exec main w) ->
  files (exec main (exec main w)) = files (exec main w)
  /\ files (exec main (exec main w)) !! factsOutputFile
     = files (exec main w) !! factsOutputFile
  /\ files (exec main (exec main w)) !! rulesOutputFile
     = files (exec main w) !! rulesOutputFile.
Proof.
  intros Hin.
  enough (H : files (exec main (exec main w)) = files (exec main w))
    by (rewrite H; auto).
  unfold exec in *. rewrite !main_closed in *. cbn [snd] in *.
  destruct (generateFactsJSON_effect markdownDir factsOutputFile w) as [uf Hf].
  destruct (generateRulesJSON_effect markdownDir rulesOutputFile w) as [ur Hr].
  set (gf := exec (generateFactsJSON markdownDir factsOutputFile)) in *.
  set (gr := exec (generateRulesJSON markdownDir rulesOutputFile)) in *.
  assert (Hne : factsOutputFile <> rulesOutputFile) by discriminate.
  (* the facts pass of the first run *)
  destruct (Hf w (inputsAgree_refl _ _) eq_refl) as (Hf1 & Hd1 & Hl1).
  (* the rules pass changes at most the rules file *)
  destruct (generateRulesJSON_effect markdownDir rulesOutputFile (gf w))
    as [ur' Hr'].
  destruct (Hr' (gf w) (inputsAgree_refl _ _) eq_refl) as (Hr1' & Hd2 & Hl2).
  fold gr in Hr1', Hd2, Hl2.
  assert (Hin1 : inputsAgree markdownDir w (gf w)).
  { destruct Hin as [Hdir Hfiles]. split; [now rewrite Hd1 |].
    intros names file Hn Hfile Hext.
    destruct (decide (path_join markdownDir file = rulesOutputFile)) as [-> | Hp].
    - rewrite Hf1. destruct uf; [now rewrite lookup_insert_ne | reflexivity].
    - rewrite (Hfiles names file Hn Hfile Hext), Hr1'.
      destruct ur'; [now rewrite lookup_insert_ne | reflexivity]. }
  destruct (Hr (gf w) Hin1 (eq_trans Hl1 eq_refl)) as (Hr1 & _ & _).
  (* the second run *)
  destruct (Hf (gr (gf w)) Hin (eq_trans Hl2 Hl1)) as (Hf2 & Hd3 & Hl3).
  assert (Hsame : files (gf (gr (gf w))) = files (gr (gf w))).
  { rewrite Hf2, Hr1, Hf1. apply map_eq. intros p.
    destruct uf as [tf|], ur as [tr|]; rewrite ?lookup_insert;
      repeat case_decide; congruence. }
  assert (Hin3 : inputsAgree markdownDir w (gf (gr (gf w)))).
  { destruct Hin as [Hdir Hfiles]. split; [now rewrite Hd3 |].
    intros names file Hn Hfile Hext. rewrite Hsame. eauto. }
  destruct (Hr (gf (gr (gf w))) Hin3 (eq_trans Hl3 (eq_trans Hl2 Hl1)))
    as (Hr2 & _ & _).
  rewrite Hr2, Hsame, Hr1. apply map_eq. intros p.
  destruct ur as [tr|]; rewrite ?lookup_insert; repeat case_decide; congruence.
Qed.

(** C8: a pass whose gathering fails, by a failed listing or a failed read,
    leaves every file as it was; a pass changes the files by at most writing
    its whole output; and the script runs the rules pass on the world the
    facts pass leaves, whether or not that pass failed. *)
Theorem passes_atomic_and_independent (dir out : string) (w : World) :
  (forall e, result (factsPass dir) w = Throw e ->
     files (exec (generateFactsJSON dir out) w) = files w)
  /\ (forall e, result (rulesPass dir) w = Throw e ->
        files (exec (generateRulesJSON dir out) w) = files w)
  /\ (dirs w !! dir = None ->
      exists e, result (factsPass dir) w = Throw e
                /\ result (rulesPass dir) w = Throw e)
  /\ (forall names file,
        dirs w !! dir = Some names -> In file names ->
        path_extname file = ".md" -> files w !! path_join dir file = None ->
        exists e, result (factsPass dir) w = Throw e
                  /\ result (rulesPass dir) w = Throw e)
  /\ (files (exec (generateFactsJSON dir out) w) = files w
      \/ exists facts,
           result (factsPass dir) w = Ok facts
           /\ files (exec (generateFactsJSON dir out) w)
              = <[out := JSON.stringify2 (JArray (map fact_json facts))]>
                  (files w))
  /\ (files (exec (generateRulesJSON dir out) w) = files w
      \/ exists objects,
           result (rulesPass dir) w = Ok objects
           /\ files (exec (generateRulesJSON dir out) w)
              = <[out := JSON.stringify2 (JArray objects)]> (files w))
  /\ exec main w
     = exec (generateRulesJSON markdownDir rulesOutputFile)
         (exec (generateFactsJSON markdownDir factsOutputFile) w).
Proof.
  assert (Hfw : forall r w1, factsPass dir w = (r, w1) -> files w1 = files w).
  { intros r w1. rewrite factsPass_closed.
    destruct (dirs w !! dir) as [names|]; [|now intros [= _ <-]].
    destruct (collect (files w) dir names) as [[facts | e] extra];
      now intros [= _ <-]. }
  assert (Hrw : forall r w1, rulesPass dir w = (r, w1) -> files w1 = files w).
  { intros r w1. rewrite rulesPass_closed.
    destruct (dirs w !! dir) as [names|]; [|now intros [= _ <-]].
    destruct (collect (files w) dir names) as [[facts | e] extra];
      now intros [= _ <-]. }
  unfold result, exec.
  rewrite generateFactsJSON_closed, generateRulesJSON_closed, main_closed.
  repeat split.
  - intros e He. destruct (factsPass dir w) as [r w1] eqn:Hrun.
    cbn in He. subst r. cbn. eauto.
  - intros e He. destruct (rulesPass dir w) as [r w1] eqn:Hrun.
    cbn in He. subst r. cbn. eauto.
  - intros Hdir. rewrite factsPass_closed, rulesPass_closed, Hdir. cbn. eauto.
  - intros names file Hdir Hin Hext Hread.
    rewrite factsPass_closed, rulesPass_closed, Hdir.
    destruct (collect_missing _ dir _ _ Hin Hext Hread) as (e & extra & ->).
    cbn. eauto.
  - destruct (factsPass dir w) as [[facts | e] w1] eqn:Hrun; [|cbn; eauto].
    pose proof (Hfw _ _ eq_refl) as Hfiles.
    destruct (decide (out ∈ locked w1)); [cbn; eauto |].
    right. exists facts. split; [reflexivity |].
    unfold fs.writeFile. destruct (decide (out ∈ locked w1)); [contradiction |].
    cbn. now rewrite Hfiles.
  - destruct (rulesPass dir w) as [[objects | e] w1] eqn:Hrun; [|cbn; eauto].
    pose proof (Hrw _ _ eq_refl) as Hfiles.
    destruct (decide (out ∈ locked w1)); [cbn; eauto |].
    right. exists objects. split; [reflexivity |].
    unfold fs.writeFile. destruct (decide (out ∈ locked w1)); [contradiction |].
    cbn. now rewrite Hfiles.
Qed.

(** C10: [generateFactsJSON] and [generateRulesJSON] resolve to [undefined]
    in every world, whatever failed inside them, so their result tells the
    caller nothing; the handler of the main script is never entered. *)
Theorem passes_never_throw (dir out : string) (w : World) :
  result (generateFactsJSON dir out) w = Ok tt
  /\ result (generateRulesJSON dir out) w = Ok tt
  /\ result main w = Ok tt
  /\ forall w', result (generateFactsJSON dir out) w
                = result (generateFactsJSON dir out) w'
                /\ result (generateRulesJSON dir out) w
                   = result (generateRulesJSON dir out) w'.
Proof.
  split; [apply generateFactsJSON_result |].
  split; [apply generateRulesJSON_result |].
  split; [unfold result; now rewrite main_closed |].
  intros w'. now rewrite !generateFactsJSON_result, !generateRulesJSON_result.
Qed.

(** C9: a bullet line whose remainder starts with a dash, or has two dashes
    in a row, gives the document the empty string as a tag, and a document
    the passes keep then has, exactly once in the rules output, the
    tag-match rule whose condition tests the empty string against the tags
    and whose message names the empty tag; the text [- - x] has the tags
    [""] and ["x"]. *)
Theorem empty_string_tag (dir out file content line remainder : string)
    (names : list string) (facts : list Fact) (w w' : World) :
  factsPass dir w = (Ok facts, w') ->
  dirs w !! dir = Some names -> In file names -> path_extname file = ".md" ->
  files w !! path_join dir file = Some content ->
  In line (JS.split LF content) ->
  line = "- " +:+ remainder ->
  ((exists r, remainder = String DASH r)
   \/ (exists a b, remainder = a +:+ String DASH (String DASH b))) ->
  exists fact,
    parseMarkdownFile (path_join dir file) w = (Ok fact, w)
    /\ In "" (tags fact)
    /\ (content = "- - x" -> tags fact = [""; "x"])
    /\ (~ In "UNFINISHED" (tags fact) ->
        exists objects rule,
          rulesPass dir w = (Ok objects, w')
          /\ In fact facts
          /\ occursOnce (tagRule "" fact) objects
          /\ rule = tagRule "" fact
          /\ rule
             = JObject
                 [("conditions",
                   JObject [("in", JArray [JString "";
                                           JObject [("var", JString "tags")]])]);
                  ("event",
                   JObject
                     [("type", JString "tagMatch");
                      ("params",
                       JObject [("message", JString "Matched tag: ");
                                ("title", JString (title fact));
                                ("body", JString (body fact))])])]
          /\ conditionsOf rule
             = Some (JObject [("in", JArray [JString "";
                                             JObject [("var", JString "tags")]])])
          /\ occursOnce rule objects
          /\ files (exec (generateRulesJSON dir out) w) !! out
             = (if decide (out ∈ locked w) then files w !! out
                else Some (JSON.stringify2 (JArray objects)))).
Proof.
  intros Hf Hdir Hin Hext Hread Hline -> Hrem.
  exists (document (path_join dir file) content).
  split; [now apply parseMarkdownFile_reads |].
  assert (Hempty : In "" (tags (document (path_join dir file) content))).
  { cbn [tags document]. unfold Spec.tagsOf.
    apply firstOccurrences_In, In_trim_empty, in_or_app. left.
    unfold Spec.bulletCandidates.
    apply in_flat_map. eexists. split; [exact Hline |].
    rewrite startsWith_app. apply In_trim_empty.
    change (JS.slice 2 ("- " +:+ remainder)) with remainder.
    destruct Hrem as [[r ->] | (a & b & ->)].
    - rewrite split_leading_sep. now left.
    - rewrite split_app_sep, split_leading_sep. apply in_or_app. right. now left. }
  split; [exact Hempty |]. split; [now intros -> |].
  intros Hun. apply includes_false in Hun.
  destruct (rulesPass_of_facts _ _ _ _ Hf) as (-> & objects & Hrun & _ & Honce & _).
  pose proof Hf as Hf'. apply factsPass_Ok in Hf' as (_ & names' & Hdir' & Hc).
  rewrite Hdir in Hdir'. injection Hdir' as <-.
  pose proof (collect_In _ _ _ _ _ _ _ Hc Hin Hext Hread Hun) as Hfact.
  assert (Hrule : occursOnce (tagRule "" (document (path_join dir file) content))
                    objects).
  { apply (Honce _ _ Hfact). now apply tagRule_In. }
  exists objects, (tagRule "" (document (path_join dir file) content)).
  split; [exact Hrun |]. split; [exact Hfact |]. split; [exact Hrule |].
  split; [reflexivity |]. split; [reflexivity |]. split; [reflexivity |].
  split; [exact Hrule |]. now apply rules_written.
Qed.

(** ** Further properties of the passes *)

Lemma passes_follow_collect (dir out : string) (names names' : list string)
    (w : World) :
  dirs w !! dir = Some names ->
  collect (files w) dir names = collect (files w) dir names' ->
  result (factsPass dir) w = result (factsPass dir) (setListing dir names' w)
  /\ result (rulesPass dir) w = result (rulesPass dir) (setListing dir names' w)
  /\ exec (generateFactsJSON dir out) (setListing dir names' w)
     = setListing dir names' (exec (generateFactsJSON dir out) w)
  /\ exec (generateRulesJSON dir out) (setListing dir names' w)
     = setListing dir names' (exec (generateRulesJSON dir out) w).
Proof.
  intros Hdir Hcollect. set (w' := setListing dir names' w).
  assert (Hdir' : dirs w' !! dir = Some names') by apply lookup_insert_eq.
  assert (Hf : factsPass dir w'
               = (fst (factsPass dir w),
                  setListing dir names' (snd (factsPass dir w)))).
  { rewrite !factsPass_closed, Hdir, Hdir', Hcollect. cbn [files w' setListing].
    destruct (collect (files w) dir names') as [[facts | e] extra]; reflexivity. }
  assert (Hr : rulesPass dir w'
               = (fst (rulesPass dir w),
                  setListing dir names' (snd (rulesPass dir w)))).
  { rewrite !rulesPass_closed, Hdir, Hdir', Hcollect. cbn [files w' setListing].
    destruct (collect (files w) dir names') as [[facts | e] extra];
      [|reflexivity].
    now rewrite (parseAll_world _ w' w). }
  unfold result, exec.
  rewrite generateFactsJSON_closed, generateRulesJSON_closed.
  rewrite (generateFactsJSON_closed dir out w), (generateRulesJSON_closed dir out w).
  rewrite Hf, Hr.
  destruct (factsPass dir w) as [[facts | e1] w1];
    destruct (rulesPass dir w) as [[objects | e2] w2]; cbn [fst snd];
    repeat split; try reflexivity;
    cbn [locked setListing]; unfold fs.writeFile; cbn [locked setListing];
    match goal with
    | |- context [decide (out ∈ locked ?x)] =>
        destruct (decide (out ∈ locked x)); reflexivity
    end.
Qed.

(** X1: a listed name whose extension is not [.md] is never read: each pass
    gathers the same facts and rules, and leaves the same files and console,
    as on the listing without that name, whether or not the name can be
    read. *)
Theorem non_markdown_ignored (dir out file : string)
    (before after : list string) (w : World) :
  dirs w !! dir = Some (before ++ file :: after) ->
  path_extname file <> ".md" ->
  result (factsPass dir) w
  = result (factsPass dir) (setListing dir (before ++ after) w)
  /\ result (rulesPass dir) w
     = result (rulesPass dir) (setListing dir (before ++ after) w)
  /\ exec (generateFactsJSON dir out) (setListing dir (before ++ after) w)
     = setListing dir (before ++ after) (exec (generateFactsJSON dir out) w)
  /\ exec (generateRulesJSON dir out) (setListing dir (before ++ after) w)
     = setListing dir (before ++ after) (exec (generateRulesJSON dir out) w).
Proof.
  intros Hdir Hext. apply (passes_follow_collect dir out _ _ w Hdir).
  now apply collect_skip.
Qed.

(** X2: when every listed Markdown file parses, the facts pass gathers the
    parsed facts without the UNFINISHED tag, in the order of the listing, and
    writes their array, indented, unless the output path cannot be written. *)
Theorem facts_in_listing_order (dir out : string) (names : list string)
    (parsed : list Fact) (w : World) :
  dirs w !! dir = Some names ->
  Forall2 (fun file fact =>
             parseMarkdownFile (path_join dir file) w = (Ok fact, w))
          (List.filter (fun file => String.eqb (path_extname file) ".md") names)
          parsed ->
  factsPass dir w
  = (Ok (List.filter (fun f => negb (JS.includes "UNFINISHED" (tags f))) parsed),
     w)
  /\ files (exec (generateFactsJSON dir out) w) !! out
     = if decide (out ∈ locked w) then files w !! out
       else Some (JSON.stringify2
                    (JArray
                       (map fact_json
                          (List.filter
                             (fun f => negb (JS.includes "UNFINISHED" (tags f)))
                             parsed)))).
Proof.
  intros Hdir Hparsed.
  assert (Hrun : factsPass dir w
                 = (Ok (List.filter
                          (fun f => negb (JS.includes "UNFINISHED" (tags f)))
                          parsed), w)).
  { rewrite factsPass_closed, Hdir, (collect_parsed _ _ _ _ Hparsed).
    now rewrite logged_nil. }
  split; [exact Hrun |].
  unfold exec. rewrite generateFactsJSON_closed, Hrun.
  destruct (decide (out ∈ locked w)); cbn; [reflexivity |].
  unfold fs.writeFile. destruct (decide (out ∈ locked w)); [contradiction |].
  cbn. apply lookup_insert_eq.
Qed.

Lemma flat_map_factKeys (facts : list Fact) :
  flat_map factKeys facts = map JSON.stringify (flat_map factRules facts).
Proof.
  induction facts as [|f facts IH]; [reflexivity |].
  cbn [flat_map]. now rewrite map_app, IH.
Qed.

Lemma map_stringify_inj (l k : list json) :
  map JSON.stringify l = map JSON.stringify k -> l = k.
Proof.
  revert k. induction l as [|x l IH]; intros [|y k]; cbn [map];
    try discriminate; [reflexivity |].
  intros [= Hx Hl]. apply stringify_inj in Hx as ->. f_equal. auto.
Qed.

(** X3: when no two facts of a run have the same title and the same body,
    nothing is deduplicated: the rules are, fact after fact in the order of
    the facts, the tag-match rules in the order of the tags and then the
    body-match rule. *)
Theorem rules_in_fact_order (dir : string) (w w' : World) (facts : list Fact) :
  factsPass dir w = (Ok facts, w') ->
  List.NoDup (map (fun f => (title f, body f)) facts) ->
  rulesPass dir w
  = (Ok (flat_map
           (fun f => map (fun tag => tagRule tag f) (tags f) ++ [bodyRule f])
           facts), w').
Proof.
  intros Hf Hpairs. apply factsPass_Ok in Hf as (-> & names & Hdir & Hc).
  destruct (rulesPass_Ok _ _ _ _ Hdir Hc) as (objects & Hrun & Hkeys).
  rewrite Hrun. do 2 f_equal. apply map_stringify_inj. rewrite Hkeys.
  rewrite flat_map_factKeys. apply firstOccurrences_NoDup_id.
  apply NoDup_map_injective; [intros x y _ _; apply stringify_inj |].
  apply flat_map_factRules_NoDup; [|exact Hpairs].
  intros f Hin. destruct (collect_kept _ _ _ _ _ _ Hc Hin)
    as (_ & file & content & _ & _ & _ & ->).
  apply firstOccurrences_NoDup.
Qed.

(** X4: the text each pass writes parses back, with [JSON.parse], to the
    array of the facts, respectively of the rule objects, it gathered. *)
Theorem outputs_parse_back (dir factsOut rulesOut : string) (w w' : World)
    (facts : list Fact) :
  factsPass dir w = (Ok facts, w') ->
  factsOut ∉ locked w -> rulesOut ∉ locked w ->
  (exists text,
     files (exec (generateFactsJSON dir factsOut) w) !! factsOut = Some text
     /\ JSON.parse text = Some (JArray (map fact_json facts)))
  /\ exists objects text,
       rulesPass dir w = (Ok objects, w')
       /\ files (exec (generateRulesJSON dir rulesOut) w) !! rulesOut = Some text
       /\ JSON.parse text = Some (JArray objects).
Proof.
  intros Hf HoutF HoutR.
  destruct (rulesPass_of_facts _ _ _ _ Hf) as (-> & objects & Hrun & _).
  split.
  - eexists. split; [|apply parse_stringify2].
    unfold exec. rewrite generateFactsJSON_closed, Hf.
    destruct (decide (factsOut ∈ locked w)); [contradiction |].
    unfold fs.writeFile. destruct (decide (factsOut ∈ locked w)); [contradiction |].
    cbn. apply lookup_insert_eq.
  - exists objects. eexists. split; [exact Hrun |].
    split; [|apply parse_stringify2].
    rewrite (rules_written _ _ _ _ Hrun).
    destruct (decide (rulesOut ∈ locked w)); [contradiction | reflexivity].
Qed.

(** X5: a pass stops at the first listed Markdown file it cannot read: the
    console gets the line of [parseMarkdownFile] and then the line of the
    pass, both with the error of that file, and nothing else changes. *)
Theorem first_unreadable_file (dir out file : string)
    (before after : list string) (w : World) :
  dirs w !! dir = Some (before ++ file :: after) ->
  (forall x, In x before -> path_extname x = ".md" ->
     is_Some (files w !! path_join dir x)) ->
  path_extname file = ".md" ->
  files w !! path_join dir file = None ->
  let failure := ENOENT "open" (path_join dir file) in
  let line :=
    ErrorLine ("Error reading file " +:+ path_join dir file +:+ ":") failure in
  exec (generateFactsJSON dir out) w
  = logged [line; ErrorLine "Error generating facts JSON:" failure] w
  /\ exec (generateRulesJSON dir out) w
     = logged [line; ErrorLine "Error generating rules JSON:" failure] w.
Proof.
  intros Hdir Hbefore Hext Hread failure line.
  pose proof (collect_first_missing (files w) dir file before after
                Hbefore Hext Hread) as Hc.
  unfold exec.
  rewrite generateFactsJSON_closed, generateRulesJSON_closed.
  rewrite factsPass_closed, rulesPass_closed, Hdir, Hc. cbn [snd].
  rewrite !logged_logged. split; reflexivity.
Qed.

(** X6: a pass logs its "generated" line exactly when it has written its
    output; otherwise the files are as before and the last line it logs is
    its error line. *)
Theorem success_line_iff_written (dir out : string) (w : World) :
  ((exists facts,
      result (factsPass dir) w = Ok facts
      /\ (out ∉ locked w)
      /\ exec (generateFactsJSON dir out) w
         = logged [LogLine ("Facts JSON generated at " +:+ out)]
             (snd (fs.writeFile out
                     (JSON.stringify2 (JArray (map fact_json facts))) w)))
   \/ (files (exec (generateFactsJSON dir out) w) = files w
       /\ exists earlier e,
            console (exec (generateFactsJSON dir out) w)
            = console w ++ earlier
              ++ [ErrorLine "Error generating facts JSON:" e]
            /\ forall m, ~ In (LogLine m) earlier))
  /\ ((exists objects,
         result (rulesPass dir) w = Ok objects
         /\ (out ∉ locked w)
         /\ exec (generateRulesJSON dir out) w
            = logged [LogLine ("Rules JSON generated at " +:+ out)]
                (snd (fs.writeFile out
                        (JSON.stringify2 (JArray objects)) w)))
      \/ (files (exec (generateRulesJSON dir out) w) = files w
          /\ exists earlier e,
               console (exec (generateRulesJSON dir out) w)
               = console w ++ earlier
                 ++ [ErrorLine "Error generating rules JSON:" e]
               /\ forall m, ~ In (LogLine m) earlier)).
Proof.
  unfold result, exec. rewrite generateFactsJSON_closed, generateRulesJSON_closed.
  destruct (dirs w !! dir) as [names|] eqn:Hdir.
  - destruct (collect (files w) dir names) as [[facts | e] extra] eqn:Hc.
    + pose proof (collect_Ok_quiet _ _ _ _ _ Hc) as ->.
      destruct (rulesPass_Ok _ _ _ _ Hdir Hc) as (objects & -> & _).
      rewrite factsPass_closed, Hdir, Hc, logged_nil.
      destruct (decide (out ∈ locked w)) as [Hin | Hout].
      * split; right; (split; [reflexivity |]); exists [], (EACCES "open" out);
          (split; [reflexivity | intros m []]).
      * split; left; eauto.
    + rewrite factsPass_closed, rulesPass_closed, Hdir, Hc.
      split; right; (split; [reflexivity |]); exists extra, e;
        cbn [snd console logged];
        (split; [now rewrite <- app_assoc | eapply collect_Throw_lines, Hc]).
  - rewrite factsPass_closed, rulesPass_closed, Hdir.
    split; right; (split; [reflexivity |]);
      exists [], (ENOENT "scandir" dir); (split; [reflexivity | intros m []]).
Qed.

(** X7: the script leaves the Markdown sources as they were: a listed file
    of the input directory with the extension [.md], reached by a path that
    is neither of the two output paths, has after the run the text it had
    before, and [parseMarkdownFile] resolves for it as before. *)
Theorem sources_untouched (names : list string) (file : string) (w : World) :
  dirs w !! markdownDir = Some names -> In file names ->
  path_extname file = ".md" ->
  path_join markdownDir file <> factsOutputFile ->
  path_join markdownDir file <> rulesOutputFile ->
  files (exec main w) !! path_join markdownDir file
  = files w !! path_join markdownDir file
  /\ result (parseMarkdownFile (path_join markdownDir file)) (exec main w)
     = result (parseMarkdownFile (path_join markdownDir file)) w.
Proof.
  intros _ _ _ Hf Hr.
  assert (Hfiles : files (exec main w) !! path_join markdownDir file
                   = files w !! path_join markdownDir file).
  { unfold exec. rewrite main_closed. cbn [snd].
    destruct (generateFactsJSON_effect markdownDir factsOutputFile w) as [uf Huf].
    destruct (Huf w (inputsAgree_refl _ _) eq_refl) as (Hf1 & _ & _).
    set (w1 := exec (generateFactsJSON markdownDir factsOutputFile) w) in *.
    destruct (generateRulesJSON_effect markdownDir rulesOutputFile w1) as [ur Hur].
    destruct (Hur w1 (inputsAgree_refl _ _) eq_refl) as (Hf2 & _ & _).
    rewrite Hf2.
    destruct ur; rewrite ?lookup_insert_ne by congruence; rewrite Hf1;
      destruct uf; rewrite ?lookup_insert_ne by congruence; reflexivity. }
  split; [exact Hfiles |]. unfold result.
  destruct (files w !! path_join markdownDir file) as [content|] eqn:Hread.
  - rewrite (parseMarkdownFile_reads _ _ _ Hread).
    now rewrite (parseMarkdownFile_reads _ _ _ Hfiles).
  - rewrite (parseMarkdownFile_missing _ _ Hread).
    now rewrite (parseMarkdownFile_missing _ _ Hfiles).
Qed.

(** ** Further properties of the parser *)

Lemma parseMarkdownFile_Ok (filePath : string) (w w' : World) (fact : Fact) :
  parseMarkdownFile filePath w = (Ok fact, w') ->
  w' = w /\ exists content,
    files w !! filePath = Some content /\ fact = document filePath content.
Proof.
  destruct (files w !! filePath) as [content|] eqn:Hread.
  - rewrite (parseMarkdownFile_reads _ _ _ Hread). intros [= <- <-]. eauto.
  - now rewrite (parseMarkdownFile_missing _ _ Hread).
Qed.

(** X8: every tag of a parsed document is trimmed, and contains neither a
    dash nor a newline. *)
Theorem tags_well_formed (filePath : string) (w w' : World) (fact : Fact)
    (tag : string) :
  parseMarkdownFile filePath w = (Ok fact, w') ->
  In tag (tags fact) ->
  JS.trim tag = tag
  /\ ~ In DASH (list_ascii_of_string tag)
  /\ ~ In LF (list_ascii_of_string tag).
Proof.
  intros Hrun Htag.
  apply parseMarkdownFile_Ok in Hrun as (_ & content & _ & ->).
  cbn [tags document] in Htag. unfold Spec.tagsOf in Htag.
  apply firstOccurrences_In, in_map_iff in Htag as (x & <- & Hx).
  apply in_app_or in Hx as [Hx | Hx].
  - unfold Spec.bulletCandidates in Hx.
    apply in_flat_map in Hx as (line & Hline & Hx).
    destruct (JS.startsWith "- " line); [|destruct Hx].
    apply in_map_iff in Hx as (piece & <- & Hpiece).
    rewrite !trim_idem.
    destruct (split_piece DASH _ _ Hpiece) as [Hdash Hsub].
    destruct (split_piece LF _ _ Hline) as [Hnl _].
    split; [reflexivity |]. split.
    + intros H. now apply Hdash, trim_chars.
    + intros H. apply Hnl. eapply slice_chars, Hsub, trim_chars, H.
  - destruct (inlineCandidates_word _ _ Hx) as [_ Hword].
    assert (Hx' : JS.trim x = x).
    { apply trim_plain. intros c Hc. now apply wordChar_not_space, Hword. }
    rewrite !Hx'. split; [reflexivity |].
    split; intros H; apply Hword in H; discriminate.
Qed.

(** X9: a hash followed by a non-empty run of word characters, itself
    followed by a character that is not a word character or by the end of the
    text, makes that run a tag, wherever it stands in the text. *)
Theorem hashtag_is_tag (filePath before word after : string) (w : World) :
  files w !! filePath = Some (before +:+ String HASH (word +:+ after)) ->
  word <> "" ->
  (forall c, In c (list_ascii_of_string word) -> JS.isWordChar c = true) ->
  (after = "" \/ exists c r, after = String c r /\ JS.isWordChar c = false) ->
  exists fact,
    parseMarkdownFile filePath w = (Ok fact, w)
    /\ In word (tags fact).
Proof.
  intros Hread Hne Hword Hafter. eexists.
  split; [apply (parseMarkdownFile_reads _ _ _ Hread) |].
  cbn [tags document]. unfold Spec.tagsOf. apply firstOccurrences_In.
  assert (Htrim : JS.trim word = word).
  { apply trim_plain. intros c Hc. now apply wordChar_not_space, Hword. }
  rewrite <- Htrim at 1. apply in_map, in_or_app. right.
  apply inlineCandidates_suffix. cbn [Spec.inlineCandidates].
  replace (Ascii.eqb HASH HASH) with true by reflexivity.
  rewrite (spanWord_app _ _ Hword (spanWord_stop _ Hafter)).
  destruct word; [congruence | now left].
Qed.

(** X10: when a pass keeps no document, because no Markdown file is listed
    or every one carries the UNFINISHED tag, both output files hold the empty
    array. *)
Theorem nothing_kept_empty_arrays (dir out : string) (w w' : World) :
  factsPass dir w = (Ok [], w') ->
  out ∉ locked w ->
  files (exec (generateFactsJSON dir out) w) !! out = Some "[]"
  /\ files (exec (generateRulesJSON dir out) w) !! out = Some "[]".
Proof.
  intros Hf Hout.
  destruct (rulesPass_of_facts _ _ _ _ Hf) as (-> & objects & Hrun & _ & _ & Hfrom).
  assert (objects = []) as ->.
  { destruct objects as [|o objects]; [reflexivity |].
    destruct (Hfrom o (or_introl eq_refl)) as (f & [] & _). }
  split.
  - unfold exec. rewrite generateFactsJSON_closed, Hf.
    destruct (decide (out ∈ locked w)); [contradiction |].
    unfold fs.writeFile. destruct (decide (out ∈ locked w)); [contradiction |].
    cbn. apply lookup_insert_eq.
  - rewrite (rules_written _ _ _ _ Hrun).
    destruct (decide (out ∈ locked w)); [contradiction | reflexivity].
Qed.

(** X11: the title of a parsed document is either the base name of its file
    or a trimmed, non-empty heading; it is empty only when that base name
    is. *)
Theorem title_never_empty (filePath : string) (w w' : World) (fact : Fact) :
  parseMarkdownFile filePath w = (Ok fact, w') ->
  (title fact = path_basename filePath ".md"
   \/ (title fact <> "" /\ JS.trim (title fact) = title fact))
  /\ (path_basename filePath ".md" <> "" -> title fact <> "").
Proof.
  intros Hrun. apply parseMarkdownFile_Ok in Hrun as (_ & content & _ & ->).
  cbn [title document].
  destruct (JS.startsWith "# " _); cbn [andb]; [|split; [now left | auto]].
  destruct (String.eqb_spec
              (JS.trim (JS.slice 2 (hd EmptyString (JS.split LF content)))) "")
    as [Heq | Hne]; cbn [negb]; [split; [now left | auto] |].
  split; [right; split; [exact Hne | apply trim_idem] | auto].
Qed.

(** X12: on the same world the rules pass fails exactly when the facts pass
    fails, with the same error and the same lines on the console; when the
    facts pass gathers its facts the rules pass gathers its rules. *)
Theorem passes_fail_together (dir : string) (w : World) :
  snd (rulesPass dir w) = snd (factsPass dir w)
  /\ (forall e, result (rulesPass dir) w = Throw e
                <-> result (factsPass dir) w = Throw e)
  /\ (forall facts, result (factsPass dir) w = Ok facts ->
        exists objects, result (rulesPass dir) w = Ok objects).
Proof.
  unfold result. rewrite factsPass_closed.
  destruct (dirs w !! dir) as [names|] eqn:Hdir.
  - destruct (collect (files w) dir names) as [[facts | e] extra] eqn:Hc.
    + pose proof (collect_Ok_quiet _ _ _ _ _ Hc) as ->.
      destruct (rulesPass_Ok _ _ _ _ Hdir Hc) as (objects & -> & _).
      rewrite logged_nil. cbn [fst snd].
      split; [reflexivity |]. split; [intros e; split; discriminate | eauto].
    + rewrite rulesPass_closed, Hdir, Hc. cbn [fst snd].
      split; [reflexivity |]. split; [intros e0; split; intros [= ->]; reflexivity | discriminate].
  - rewrite rulesPass_closed, Hdir. cbn [fst snd].
    split; [reflexivity |]. split; [intros e0; split; intros [= ->]; reflexivity | discriminate].
Qed.

(** X13: every fact the facts pass gathers is what [parseMarkdownFile]
    resolves to for a listed file with the extension [.md], and does not
    carry the UNFINISHED tag. *)
Theorem facts_are_listed_documents (dir : string) (w w' : World)
    (facts : list Fact) (f : Fact) :
  factsPass dir w = (Ok facts, w') ->
  In f facts ->
  ~ In "UNFINISHED" (tags f)
  /\ exists names file,
       dirs w !! dir = Some names /\ In file names
       /\ path_extname file = ".md"
       /\ parseMarkdownFile (path_join dir file) w = (Ok f, w).
Proof.
  intros Hf Hin. apply factsPass_Ok in Hf as (-> & names & Hdir & Hc).
  destruct (collect_kept _ _ _ _ _ _ Hc Hin)
    as (Hun & file & content & Hfile & Hext & Hread & ->).
  split; [now apply includes_false |].
  exists names, file. repeat split; try assumption.
  now apply parseMarkdownFile_reads.
Qed.

(** X14: a document without bullet lines has only tags that are non-empty
    runs of word characters. *)
Theorem inline_tags_are_words (filePath content : string) (w : World)
    (tag : string) :
  files w !! filePath = Some content ->
  (forall line, In line (JS.split LF content) ->
     JS.startsWith "- " line = false) ->
  exists fact,
    parseMarkdownFile filePath w = (Ok fact, w)
    /\ (In tag (tags fact) ->
        tag <> ""
        /\ forall c, In c (list_ascii_of_string tag) -> JS.isWordChar c = true).
Proof.
  intros Hread Hlines. eexists.
  split; [apply (parseMarkdownFile_reads _ _ _ Hread) |].
  cbn [tags document]. unfold Spec.tagsOf. intros Htag.
  apply firstOccurrences_In, in_map_iff in Htag as (x & <- & Hx).
  apply in_app_or in Hx as [Hx | Hx].
  - unfold Spec.bulletCandidates in Hx.
    apply in_flat_map in Hx as (line & Hline & Hx).
    rewrite (Hlines line Hline) in Hx. destruct Hx.
  - destruct (inlineCandidates_word _ _ Hx) as [Hne Hword].
    assert (Hx' : JS.trim x = x).
    { apply trim_plain. intros c Hc. now apply wordChar_not_space, Hword. }
    rewrite Hx'. auto.
Qed.

End Script.

(** ** The properties on the example worlds *)

Local Abbreviation demo_parse := (parseMarkdownFile Demo.basename Demo.marked).
Local Abbreviation demo_document := (document Demo.basename Demo.marked).
Local Abbreviation demo_factsPass :=
  (factsPass Demo.extname Demo.basename Demo.join Demo.marked).
Local Abbreviation demo_rulesPass :=
  (rulesPass Demo.extname Demo.basename Demo.join Demo.marked).
Local Abbreviation demo_main :=
  (main Demo.extname Demo.basename Demo.join Demo.marked).

Lemma rules_deduplicated_witness :
  demo_factsPass markdownDir Demo.scenario
  = (Ok [demo_document "markdown/a.md" Demo.a_md;
         demo_document "markdown/b.md" Demo.b_md], Demo.scenario)
  /\ exists objects,
       demo_rulesPass markdownDir Demo.scenario = (Ok objects, Demo.scenario)
       /\ List.NoDup (map JSON.stringify objects)
       /\ occursOnce (tagRule "z" (demo_document "markdown/a.md" Demo.a_md)) objects
       /\ occursOnce (tagRule "z" (demo_document "markdown/b.md" Demo.b_md)) objects.
Proof.
  assert (H : demo_factsPass markdownDir Demo.scenario
              = (Ok [demo_document "markdown/a.md" Demo.a_md;
                     demo_document "markdown/b.md" Demo.b_md], Demo.scenario))
    by (vm_compute; reflexivity).
  split; [exact H |].
  destruct (rules_deduplicated Demo.extname Demo.basename Demo.join Demo.marked
              markdownDir rulesOutputFile Demo.scenario Demo.scenario _ H)
    as (objects & Hrun & _ & Hnd & Hpair).
  destruct (Hpair 0 1 _ _ "z" eq_refl eq_refl) as (H1 & H2 & _);
    [lia | vm_compute; auto | vm_compute; auto |].
  exists objects. auto.
Defined.

Lemma tags_merged_deduplicated_witness :
  files Demo.tagged !! "markdown/t.md" = Some Demo.tagged_md
  /\ exists fact,
       demo_parse "markdown/t.md" Demo.tagged = (Ok fact, Demo.tagged)
       /\ tags fact = ["a"; "b"; "c"].
Proof.
  assert (H : files Demo.tagged !! "markdown/t.md" = Some Demo.tagged_md)
    by (vm_compute; reflexivity).
  split; [exact H |].
  destruct (tags_merged_deduplicated Demo.basename Demo.marked
              "markdown/t.md" Demo.tagged_md Demo.tagged H)
    as (fact & Hrun & _ & _ & _ & Hex).
  exists fact. split; [exact Hrun | apply Hex; reflexivity].
Defined.

Lemma unfinished_contributes_nothing_witness :
  dirs Demo.drafts !! markdownDir = Some (["a.md"] ++ "u.md" :: ["b.md"])
  /\ In "UNFINISHED" (tags (demo_document "markdown/u.md" Demo.draft_md))
  /\ exec (generateFactsJSON Demo.extname Demo.basename Demo.join Demo.marked
             markdownDir factsOutputFile)
       (setListing markdownDir (["a.md"] ++ ["b.md"]) Demo.drafts)
     = setListing markdownDir (["a.md"] ++ ["b.md"])
         (exec (generateFactsJSON Demo.extname Demo.basename Demo.join
                  Demo.marked markdownDir factsOutputFile) Demo.drafts).
Proof.
  assert (Hd : dirs Demo.drafts !! markdownDir
               = Some (["a.md"] ++ "u.md" :: ["b.md"]))
    by (vm_compute; reflexivity).
  assert (Ht : In "UNFINISHED"
                 (tags (demo_document "markdown/u.md" Demo.draft_md)))
    by (vm_compute; auto).
  split; [exact Hd |]. split; [exact Ht |].
  apply (unfinished_contributes_nothing Demo.extname Demo.basename Demo.join
           Demo.marked markdownDir factsOutputFile "u.md" ["a.md"] ["b.md"]
           (demo_document "markdown/u.md" Demo.draft_md) Demo.drafts Hd);
    [reflexivity | vm_compute; reflexivity | exact Ht].
Defined.

(** The claim C4 fails on a document whose heading is blank: the title is
    the base name of the file, not the empty rest of the first line. *)
Lemma header_title_counterexample :
  JS.startsWith "# " (hd EmptyString (JS.split LF "# ")) = true
  /\ exists fact,
       demo_parse "markdown/n.md" Demo.blank = (Ok fact, Demo.blank)
       /\ title fact = "n"
       /\ title fact <> JS.trim (JS.slice 2 (hd EmptyString (JS.split LF "# "))).
Proof.
  split; [reflexivity |].
  exists (demo_document "markdown/n.md" "# ").
  split; [vm_compute; reflexivity |]. split; [reflexivity |].
  vm_compute. discriminate.
Qed.

Lemma header_title_and_body_witness :
  files Demo.scenario !! "markdown/a.md" = Some Demo.a_md
  /\ JS.split LF Demo.a_md = ["# Hello"; "- x - y"; "Body text #z"]
  /\ exists fact,
       demo_parse "markdown/a.md" Demo.scenario = (Ok fact, Demo.scenario)
       /\ title fact = "Hello"
       /\ body fact = "- x - y" +:+ String LF "Body text #z".
Proof.
  assert (H : files Demo.scenario !! "markdown/a.md" = Some Demo.a_md)
    by (vm_compute; reflexivity).
  assert (Hs : JS.split LF Demo.a_md = ["# Hello"; "- x - y"; "Body text #z"])
    by reflexivity.
  split; [exact H |]. split; [exact Hs |].
  destruct (header_title_and_body Demo.basename Demo.marked "markdown/a.md"
              Demo.a_md _ _ Demo.scenario H Hs eq_refl)
    as (fact & Hrun & Htitle & Hbody & _).
  exists fact. split; [exact Hrun |]. split; [exact Htitle | exact Hbody].
Defined.

(** The claim C5 fails on two documents with the same body and different
    titles: the output has two body-match rules with the condition for that
    body. *)
Lemma body_rule_counterexample :
  exists f1 f2 objects,
    demo_factsPass markdownDir Demo.twins = (Ok [f1; f2], Demo.twins)
    /\ demo_rulesPass markdownDir Demo.twins = (Ok objects, Demo.twins)
    /\ body f1 = body f2
    /\ title f1 <> title f2
    /\ bodyMatchRulesFor (body f1) objects = [bodyRule f1; bodyRule f2]
    /\ length (bodyMatchRulesFor (body f1) objects) = 2.
Proof.
  exists (demo_document "markdown/a.md" "same"),
         (demo_document "markdown/b.md" "same"),
         [bodyRule (demo_document "markdown/a.md" "same");
          bodyRule (demo_document "markdown/b.md" "same")].
  split; [vm_compute; reflexivity |]. split; [vm_compute; reflexivity |].
  split; [reflexivity |]. split; [vm_compute; discriminate |].
  split; vm_compute; reflexivity.
Qed.

Lemma body_rule_per_title_and_body_witness :
  demo_factsPass markdownDir Demo.twins
  = (Ok [demo_document "markdown/a.md" "same";
         demo_document "markdown/b.md" "same"], Demo.twins)
  /\ exists objects,
       demo_rulesPass markdownDir Demo.twins = (Ok objects, Demo.twins)
       /\ occursOnce (bodyRule (demo_document "markdown/a.md" "same")) objects
       /\ occursOnce (bodyRule (demo_document "markdown/b.md" "same")) objects
       /\ bodyRule (demo_document "markdown/a.md" "same")
          <> bodyRule (demo_document "markdown/b.md" "same").
Proof.
  assert (H : demo_factsPass markdownDir Demo.twins
              = (Ok [demo_document "markdown/a.md" "same";
                     demo_document "markdown/b.md" "same"], Demo.twins))
    by (vm_compute; reflexivity).
  split; [exact H |].
  destruct (body_rule_per_title_and_body Demo.extname Demo.basename Demo.join
              Demo.marked markdownDir Demo.twins Demo.twins _ H)
    as (objects & Hrun & Hone & _ & Hpair).
  exists objects. split; [exact Hrun |].
  split; [apply Hone; now left |]. split; [apply Hone; right; now left |].
  destruct (Hpair 0 1 _ _ eq_refl eq_refl eq_refl) as (_ & Hne & _).
  exact Hne.
Defined.

Lemma headerless_title_witness :
  files Demo.empty !! "markdown/z.md" = Some ""
  /\ demo_parse "markdown/z.md" Demo.empty
     = (Ok {| title := "z"; body := ""; tags := [];
              htmlContent := Demo.marked "" |}, Demo.empty).
Proof.
  assert (H : files Demo.empty !! "markdown/z.md" = Some "")
    by (vm_compute; reflexivity).
  split; [exact H |].
  destruct (headerless_title Demo.basename Demo.marked "markdown/z.md" ""
              Demo.empty H eq_refl) as (_ & _ & _ & Hempty).
  exact (Hempty eq_refl).
Defined.

Lemma generation_idempotent_witness :
  inputsAgree Demo.extname Demo.join markdownDir Demo.scenario
    (exec demo_main Demo.scenario)
  /\ files (exec demo_main (exec demo_main Demo.scenario))
     = files (exec demo_main Demo.scenario)
  /\ is_Some (files (exec demo_main Demo.scenario) !! factsOutputFile)
  /\ is_Some (files (exec demo_main Demo.scenario) !! rulesOutputFile).
Proof.
  assert (H : inputsAgree Demo.extname Demo.join markdownDir Demo.scenario
                (exec demo_main Demo.scenario)).
  { split; [vm_compute; reflexivity |]. intros names file Hn Hin Hext.
    assert (names = ["a.md"; "b.md"; "notes.txt"]) as ->
      by (vm_compute in Hn; congruence).
    cbn [In] in Hin. destruct Hin as [<- | [<- | [<- | []]]];
      vm_compute; reflexivity. }
  split; [exact H |]. split; [|split; vm_compute; eauto].
  apply (generation_idempotent Demo.extname Demo.basename Demo.join Demo.marked
           Demo.scenario H).
Defined.

Lemma empty_string_tag_witness :
  demo_factsPass markdownDir Demo.dashes
  = (Ok [demo_document "markdown/e.md" "- - x"], Demo.dashes)
  /\ exists fact objects,
       demo_parse "markdown/e.md" Demo.dashes = (Ok fact, Demo.dashes)
       /\ tags fact = [""; "x"]
       /\ demo_rulesPass markdownDir Demo.dashes = (Ok objects, Demo.dashes)
       /\ occursOnce
            (JObject
               [("conditions",
                 JObject [("in", JArray [JString "";
                                         JObject [("var", JString "tags")]])]);
                ("event",
                 JObject
                   [("type", JString "tagMatch");
                    ("params",
                     JObject [("message", JString "Matched tag: ");
                              ("title", JString (title fact));
                              ("body", JString (body fact))])])])
            objects.
Proof.
  assert (H : demo_factsPass markdownDir Demo.dashes
              = (Ok [demo_document "markdown/e.md" "- - x"], Demo.dashes))
    by (vm_compute; reflexivity).
  split; [exact H |].
  destruct (empty_string_tag Demo.extname Demo.basename Demo.join Demo.marked
              markdownDir rulesOutputFile "e.md" "- - x" "- - x" "- x" ["e.md"] _
              Demo.dashes Demo.dashes H)
    as (fact & Hrun & _ & Htags & Hrule);
    [vm_compute; reflexivity | now left | reflexivity | vm_compute; reflexivity
    | now left | reflexivity | left; eexists; reflexivity |].
  specialize (Htags eq_refl).
  destruct Hrule as (objects & rule & Hr & _ & _ & _ & Hshape & _ & Honce & _).
  { rewrite Htags. cbn [In]. intros [H' | [H' | []]]; discriminate. }
  exists fact, objects. rewrite <- Hshape. auto.
Defined.

Lemma passes_atomic_and_independent_witness :
  files Demo.broken !! "markdown/gone.md" = None
  /\ files (exec (generateFactsJSON Demo.extname Demo.basename Demo.join
                    Demo.marked markdownDir factsOutputFile) Demo.broken)
     = files Demo.broken
  /\ exec demo_main Demo.broken
     = exec (generateRulesJSON Demo.extname Demo.basename Demo.join
               Demo.marked markdownDir rulesOutputFile)
         (exec (generateFactsJSON Demo.extname Demo.basename Demo.join
                  Demo.marked markdownDir factsOutputFile) Demo.broken).
Proof.
  assert (H : files Demo.broken !! "markdown/gone.md" = None)
    by (vm_compute; reflexivity).
  split; [exact H |].
  destruct (passes_atomic_and_independent Demo.extname Demo.basename Demo.join
              Demo.marked markdownDir factsOutputFile Demo.broken)
    as (Hfacts & _ & _ & Hread & _ & _ & Hmain).
  destruct (Hread ["a.md"; "gone.md"] "gone.md") as (e & He & _);
    [vm_compute; reflexivity | right; now left | reflexivity | exact H |].
  split; [exact (Hfacts e He) | exact Hmain].
Defined.

(** ** The further properties on the example worlds *)

Local Abbreviation demo_generateFactsJSON :=
  (generateFactsJSON Demo.extname Demo.basename Demo.join Demo.marked).
Local Abbreviation demo_generateRulesJSON :=
  (generateRulesJSON Demo.extname Demo.basename Demo.join Demo.marked).

Lemma non_markdown_ignored_witness :
  dirs Demo.scenario !! markdownDir = Some (["a.md"; "b.md"] ++ "notes.txt" :: [])
  /\ Demo.extname "notes.txt" <> ".md"
  /\ exec (demo_generateFactsJSON markdownDir factsOutputFile)
       (setListing markdownDir (["a.md"; "b.md"] ++ []) Demo.scenario)
     = setListing markdownDir (["a.md"; "b.md"] ++ [])
         (exec (demo_generateFactsJSON markdownDir factsOutputFile) Demo.scenario).
Proof.
  assert (Hd : dirs Demo.scenario !! markdownDir
               = Some (["a.md"; "b.md"] ++ "notes.txt" :: []))
    by (vm_compute; reflexivity).
  assert (He : Demo.extname "notes.txt" <> ".md") by (vm_compute; discriminate).
  split; [exact Hd |]. split; [exact He |].
  apply (non_markdown_ignored Demo.extname Demo.basename Demo.join Demo.marked
           markdownDir factsOutputFile "notes.txt" ["a.md"; "b.md"] []
           Demo.scenario Hd He).
Defined.

Lemma facts_in_listing_order_witness :
  dirs Demo.drafts !! markdownDir = Some ["a.md"; "u.md"; "b.md"]
  /\ demo_factsPass markdownDir Demo.drafts
     = (Ok [demo_document "markdown/a.md" Demo.a_md;
            demo_document "markdown/b.md" Demo.b_md], Demo.drafts).
Proof.
  assert (Hd : dirs Demo.drafts !! markdownDir = Some ["a.md"; "u.md"; "b.md"])
    by (vm_compute; reflexivity).
  split; [exact Hd |].
  apply (facts_in_listing_order Demo.extname Demo.basename Demo.join Demo.marked
           markdownDir factsOutputFile ["a.md"; "u.md"; "b.md"]
           [demo_document "markdown/a.md" Demo.a_md;
            demo_document "markdown/u.md" Demo.draft_md;
            demo_document "markdown/b.md" Demo.b_md]
           Demo.drafts Hd).
  change (List.filter (fun file => String.eqb (Demo.extname file) ".md")
            ["a.md"; "u.md"; "b.md"])
    with ["a.md"; "u.md"; "b.md"].
  constructor; [vm_compute; reflexivity |].
  constructor; [vm_compute; reflexivity |].
  constructor; [vm_compute; reflexivity |].
  constructor.
Defined.

Lemma rules_in_fact_order_witness :
  demo_factsPass markdownDir Demo.scenario
  = (Ok [demo_document "markdown/a.md" Demo.a_md;
         demo_document "markdown/b.md" Demo.b_md], Demo.scenario)
  /\ exists fa fb,
       demo_rulesPass markdownDir Demo.scenario
       = (Ok [tagRule "x" fa; tagRule "y" fa; tagRule "z" fa; bodyRule fa;
              tagRule "z" fb; bodyRule fb], Demo.scenario).
Proof.
  assert (H : demo_factsPass markdownDir Demo.scenario
              = (Ok [demo_document "markdown/a.md" Demo.a_md;
                     demo_document "markdown/b.md" Demo.b_md], Demo.scenario))
    by (vm_compute; reflexivity).
  split; [exact H |].
  exists (demo_document "markdown/a.md" Demo.a_md),
         (demo_document "markdown/b.md" Demo.b_md).
  apply (rules_in_fact_order Demo.extname Demo.basename Demo.join Demo.marked
           markdownDir Demo.scenario Demo.scenario _ H).
  vm_compute. repeat constructor; cbn [In]; intuition discriminate.
Defined.

Lemma outputs_parse_back_witness :
  demo_factsPass markdownDir Demo.scenario
  = (Ok [demo_document "markdown/a.md" Demo.a_md;
         demo_document "markdown/b.md" Demo.b_md], Demo.scenario)
  /\ exists text,
       files (exec (demo_generateFactsJSON markdownDir factsOutputFile)
                Demo.scenario) !! factsOutputFile = Some text
       /\ JSON.parse text
          = Some (JArray (map fact_json
                            [demo_document "markdown/a.md" Demo.a_md;
                             demo_document "markdown/b.md" Demo.b_md])).
Proof.
  assert (H : demo_factsPass markdownDir Demo.scenario
              = (Ok [demo_document "markdown/a.md" Demo.a_md;
                     demo_document "markdown/b.md" Demo.b_md], Demo.scenario))
    by (vm_compute; reflexivity).
  split; [exact H |].
  destruct (outputs_parse_back Demo.extname Demo.basename Demo.join Demo.marked
              markdownDir factsOutputFile rulesOutputFile
              Demo.scenario Demo.scenario _ H) as [Hfacts _];
    [vm_compute; set_solver | vm_compute; set_solver |].
  exact Hfacts.
Defined.

Lemma first_unreadable_file_witness :
  dirs Demo.broken !! markdownDir = Some (["a.md"] ++ "gone.md" :: [])
  /\ files Demo.broken !! Demo.join markdownDir "gone.md" = None
  /\ console (exec (demo_generateFactsJSON markdownDir factsOutputFile)
                Demo.broken)
     = [ErrorLine "Error reading file markdown/gone.md:"
          (ENOENT "open" "markdown/gone.md");
        ErrorLine "Error generating facts JSON:"
          (ENOENT "open" "markdown/gone.md")].
Proof.
  assert (Hd : dirs Demo.broken !! markdownDir
               = Some (["a.md"] ++ "gone.md" :: []))
    by (vm_compute; reflexivity).
  assert (Hr : files Demo.broken !! Demo.join markdownDir "gone.md" = None)
    by (vm_compute; reflexivity).
  split; [exact Hd |]. split; [exact Hr |].
  destruct (first_unreadable_file Demo.extname Demo.basename Demo.join
              Demo.marked markdownDir factsOutputFile "gone.md" ["a.md"] []
              Demo.broken Hd) as [Hfacts _];
    [ intros x [<- | []] _; vm_compute; eauto | reflexivity | exact Hr |].
  rewrite Hfacts. reflexivity.
Defined.

Lemma sources_untouched_witness :
  dirs Demo.scenario !! markdownDir = Some ["a.md"; "b.md"; "notes.txt"]
  /\ Demo.join markdownDir "a.md" <> factsOutputFile
  /\ Demo.join markdownDir "a.md" <> rulesOutputFile
  /\ files (exec demo_main Demo.scenario) !! Demo.join markdownDir "a.md"
     = Some Demo.a_md.
Proof.
  assert (Hd : dirs Demo.scenario !! markdownDir
               = Some ["a.md"; "b.md"; "notes.txt"])
    by (vm_compute; reflexivity).
  assert (Hf : Demo.join markdownDir "a.md" <> factsOutputFile)
    by (vm_compute; discriminate).
  assert (Hr : Demo.join markdownDir "a.md" <> rulesOutputFile)
    by (vm_compute; discriminate).
  split; [exact Hd |]. split; [exact Hf |]. split; [exact Hr |].
  destruct (sources_untouched Demo.extname Demo.basename Demo.join Demo.marked
              ["a.md"; "b.md"; "notes.txt"] "a.md" Demo.scenario Hd
              (or_introl eq_refl) eq_refl Hf Hr) as (-> & _).
  vm_compute. reflexivity.
Defined.

Lemma tags_well_formed_witness :
  demo_parse "markdown/a.md" Demo.scenario
  = (Ok (demo_document "markdown/a.md" Demo.a_md), Demo.scenario)
  /\ In "x" (tags (demo_document "markdown/a.md" Demo.a_md))
  /\ JS.trim "x" = "x".
Proof.
  assert (H : demo_parse "markdown/a.md" Demo.scenario
              = (Ok (demo_document "markdown/a.md" Demo.a_md), Demo.scenario))
    by (vm_compute; reflexivity).
  assert (Ht : In "x" (tags (demo_document "markdown/a.md" Demo.a_md)))
    by (vm_compute; auto).
  split; [exact H |]. split; [exact Ht |].
  exact (proj1 (tags_well_formed Demo.basename Demo.marked "markdown/a.md"
                  Demo.scenario Demo.scenario _ "x" H Ht)).
Defined.

Lemma hashtag_is_tag_witness :
  files Demo.drafts !! "markdown/u.md"
  = Some ("Draft " +:+ String HASH ("UNFINISHED" +:+ ""))
  /\ exists fact,
       demo_parse "markdown/u.md" Demo.drafts = (Ok fact, Demo.drafts)
       /\ In "UNFINISHED" (tags fact).
Proof.
  assert (H : files Demo.drafts !! "markdown/u.md"
              = Some ("Draft " +:+ String HASH ("UNFINISHED" +:+ "")))
    by (vm_compute; reflexivity).
  split; [exact H |].
  apply (hashtag_is_tag Demo.basename Demo.marked "markdown/u.md" "Draft "
           "UNFINISHED" "" Demo.drafts H);
    [discriminate | | now left].
  intros c Hc. cbn [list_ascii_of_string In] in Hc.
  repeat (destruct Hc as [<- | Hc]; [reflexivity |]). destruct Hc.
Defined.

Lemma nothing_kept_empty_arrays_witness :
  demo_factsPass markdownDir Demo.bare = (Ok [], Demo.bare)
  /\ files (exec (demo_generateFactsJSON markdownDir factsOutputFile) Demo.bare)
       !! factsOutputFile = Some "[]"
  /\ files (exec (demo_generateRulesJSON markdownDir factsOutputFile) Demo.bare)
       !! factsOutputFile = Some "[]".
Proof.
  assert (H : demo_factsPass markdownDir Demo.bare = (Ok [], Demo.bare))
    by (vm_compute; reflexivity).
  split; [exact H |].
  apply (nothing_kept_empty_arrays Demo.extname Demo.basename Demo.join
           Demo.marked markdownDir factsOutputFile Demo.bare Demo.bare H).
  vm_compute. set_solver.
Defined.

Lemma title_never_empty_witness :
  demo_parse "markdown/a.md" Demo.scenario
  = (Ok (demo_document "markdown/a.md" Demo.a_md), Demo.scenario)
  /\ Demo.basename "markdown/a.md" ".md" <> ""
  /\ title (demo_document "markdown/a.md" Demo.a_md) <> "".
Proof.
  assert (H : demo_parse "markdown/a.md" Demo.scenario
              = (Ok (demo_document "markdown/a.md" Demo.a_md), Demo.scenario))
    by (vm_compute; reflexivity).
  assert (Hb : Demo.basename "markdown/a.md" ".md" <> "")
    by (vm_compute; discriminate).
  split; [exact H |]. split; [exact Hb |].
  exact (proj2 (title_never_empty Demo.basename Demo.marked "markdown/a.md"
                  Demo.scenario Demo.scenario _ H) Hb).
Defined.

Lemma facts_are_listed_documents_witness :
  demo_factsPass markdownDir Demo.scenario
  = (Ok [demo_document "markdown/a.md" Demo.a_md;
         demo_document "markdown/b.md" Demo.b_md], Demo.scenario)
  /\ ~ In "UNFINISHED" (tags (demo_document "markdown/b.md" Demo.b_md)).
Proof.
  assert (H : demo_factsPass markdownDir Demo.scenario
              = (Ok [demo_document "markdown/a.md" Demo.a_md;
                     demo_document "markdown/b.md" Demo.b_md], Demo.scenario))
    by (vm_compute; reflexivity).
  split; [exact H |].
  apply (facts_are_listed_documents Demo.extname Demo.basename Demo.join
           Demo.marked markdownDir Demo.scenario Demo.scenario _ _ H).
  right. now left.
Defined.

Lemma inline_tags_are_words_witness :
  files Demo.scenario !! "markdown/b.md" = Some Demo.b_md
  /\ exists fact,
       demo_parse "markdown/b.md" Demo.scenario = (Ok fact, Demo.scenario)
       /\ (In "z" (tags fact) -> "z" <> "").
Proof.
  assert (H : files Demo.scenario !! "markdown/b.md" = Some Demo.b_md)
    by (vm_compute; reflexivity).
  split; [exact H |].
  destruct (inline_tags_are_words Demo.basename Demo.marked "markdown/b.md"
              Demo.b_md Demo.scenario "z" H) as (fact & Hrun & Hz).
  { intros line Hl. vm_compute in Hl.
    destruct Hl as [<- | [<- | []]]; reflexivity. }
  exists fact. split; [exact Hrun |]. intros Hin. exact (proj1 (Hz Hin)).
Defined.
